(** * Mean-variance portfolio toolkit: metrics, risk analytics and optimizer

    A shallow embedding of [financial_modelling/models.py],
    [financial_modelling/metrics.py] and [financial_modelling/optimization.py].

    Numbers.  The Python code computes with numpy [float64] values.  They are
    modelled by [fl]: an exact rational, or one of the IEEE special values
    [+inf], [-inf], [nan].  Rounding is not modelled (finite arithmetic is
    exact), the special values follow IEEE-754 / numpy: a numpy division by
    zero yields an infinity or [nan] (with a warning), a plain Python
    division by zero raises [ZeroDivisionError].  Where rounding decides a
    property, the historical risk measures are run once more on binary64
    values ([Binary64], over the primitive floats).

    Libraries.  numpy's [sqrt], the float power operator, scipy's [minimize]
    and numpy's global random generator are not part of the repository; they
    are taken as interfaces ([Libm], [Scipy], [NumpyRandom]). *)

From Stdlib Require Import QArith Qround Qabs Lqa ZArith Lia.
From Stdlib Require Import Sorted Permutation.
From Stdlib Require Import Floats.PrimFloat Numbers.Cyclic.Int63.Uint63.
From stdpp Require Import gmap strings list fin_maps.

Local Open Scope Q_scope.

(** ** Python exceptions and the error monad *)

Inductive exn : Type :=
| IndexError
| ZeroDivisionError
| ValueError
| SolverException.

Inductive result (A : Type) : Type :=
| Ok (a : A)
| Raise (e : exn).
Arguments Ok {A} a.
Arguments Raise {A} e.

Definition rbind {A B} (r : result A) (k : A -> result B) : result B :=
  match r with
  | Ok a => k a
  | Raise e => Raise e
  end.

Notation "'let*' x := r 'in' k" := (rbind r (fun x => k))
  (at level 10, x name, r at level 100, k at level 200).

(** ** Floating-point values *)

Module Float.

Inductive fl : Type :=
| Fin (q : Q)
| PInf
| NInf
| NaN.

Definition zero : fl := Fin 0.
Definition one : fl := Fin 1.

Definition is_nan (x : fl) : bool :=
  match x with NaN => true | _ => false end.

Definition is_finite (x : fl) : bool :=
  match x with Fin _ => true | _ => false end.

Definition Qltb (a b : Q) : bool := negb (Qle_bool b a).

Definition fneg (x : fl) : fl :=
  match x with
  | Fin q => Fin (- q)
  | PInf => NInf
  | NInf => PInf
  | NaN => NaN
  end.

Definition fadd (x y : fl) : fl :=
  match x, y with
  | NaN, _ | _, NaN => NaN
  | Fin a, Fin b => Fin (a + b)
  | PInf, NInf | NInf, PInf => NaN
  | PInf, _ | _, PInf => PInf
  | NInf, _ | _, NInf => NInf
  end.

Definition fsub (x y : fl) : fl := fadd x (fneg y).

(** Sign of an infinity times a finite factor; a zero factor gives [nan]. *)
Definition scale_inf (pos : bool) (a : Q) : fl :=
  if Qeq_bool a 0 then NaN
  else if Qltb 0 a then (if pos then PInf else NInf)
  else (if pos then NInf else PInf).

Definition fmul (x y : fl) : fl :=
  match x, y with
  | NaN, _ | _, NaN => NaN
  | Fin a, Fin b => Fin (a * b)
  | Fin a, PInf | PInf, Fin a => scale_inf true a
  | Fin a, NInf | NInf, Fin a => scale_inf false a
  | PInf, PInf | NInf, NInf => PInf
  | PInf, NInf | NInf, PInf => NInf
  end.

(** numpy division: never raises.  Signed zeros are not modelled, a zero
    divisor counts as [+0]. *)
Definition fdiv (x y : fl) : fl :=
  match x, y with
  | NaN, _ | _, NaN => NaN
  | Fin a, Fin b =>
      if Qeq_bool b 0 then scale_inf true a else Fin (a / b)
  | Fin _, PInf | Fin _, NInf => Fin 0
  | PInf, Fin b => if Qle_bool 0 b then PInf else NInf
  | NInf, Fin b => if Qle_bool 0 b then NInf else PInf
  | PInf, PInf | PInf, NInf | NInf, PInf | NInf, NInf => NaN
  end.

(** Comparisons: every comparison with [nan] is false. *)
Definition feqb (x y : fl) : bool :=
  match x, y with
  | Fin a, Fin b => Qeq_bool a b
  | PInf, PInf | NInf, NInf => true
  | _, _ => false
  end.

Definition fleb (x y : fl) : bool :=
  match x, y with
  | NaN, _ | _, NaN => false
  | NInf, _ => true
  | _, PInf => true
  | Fin a, Fin b => Qle_bool a b
  | _, _ => false
  end.

Definition fltb (x y : fl) : bool :=
  match x, y with
  | NaN, _ | _, NaN => false
  | Fin a, Fin b => Qltb a b
  | NInf, NInf | PInf, PInf => false
  | NInf, _ => true
  | _, PInf => true
  | _, _ => false
  end.

(** Python float division ([a / b] on builtin numbers): raises on a zero
    divisor. *)
Definition py_div (x y : fl) : result fl :=
  if feqb y zero then Raise ZeroDivisionError else Ok (fdiv x y).

(** Equality and order of values as propositions; [feq] identifies equal
    rationals whatever their representation, and [nan] with itself. *)
Definition feq (x y : fl) : Prop :=
  match x, y with
  | Fin a, Fin b => a == b
  | PInf, PInf | NInf, NInf | NaN, NaN => True
  | _, _ => False
  end.

Definition fle (x y : fl) : Prop := fleb x y = true.

Definition of_Z (z : Z) : fl := Fin (inject_Z z).
Definition of_nat (n : nat) : fl := of_Z (Z.of_nat n).

End Float.
Import Float.

Declare Scope fl_scope.
Delimit Scope fl_scope with fl.
Bind Scope fl_scope with fl.
Infix "+" := fadd : fl_scope.
Infix "-" := fsub : fl_scope.
Infix "*" := fmul : fl_scope.
Infix "/" := fdiv : fl_scope.
Infix "=?" := feqb : fl_scope.
Infix "<=?" := fleb : fl_scope.
Infix "<?" := fltb : fl_scope.
Notation "x <= y" := (fle x y) : fl_scope.
Notation "x == y" := (feq x y) : fl_scope.


(** ** External numeric library

    [sqrtQ] is the square root on non-negative finite values (numpy's
    [np.sqrt]), [powf] is the float power operator [x ** y]. *)

Class Libm : Type := {
  sqrtQ : Q -> Q;
  powf : fl -> fl -> fl
}.

(** ** numpy *)

Module Numpy.

Definition np_sqrt `{L : Libm} (x : fl) : fl :=
  match x with
  | Fin q => if Qltb q 0 then NaN else Fin (sqrtQ q)
  | PInf => PInf
  | NInf => NaN
  | NaN => NaN
  end.

(** [np.sum]: plain accumulation, a [nan] poisons the sum. *)
Definition np_sum (a : list fl) : fl := fold_left fadd a zero.

Fixpoint map2 {A B C} (f : A -> B -> C) (a : list A) (b : list B) : list C :=
  match a, b with
  | x :: a', y :: b' => f x y :: map2 f a' b'
  | _, _ => []
  end.

(** [np.dot] of two vectors, and of a matrix (list of rows) with a vector. *)
Definition np_dot (a b : list fl) : fl := np_sum (map2 fmul a b).

Definition np_matvec (m : list (list fl)) (v : list fl) : list fl :=
  map (fun row => np_dot row v) m.

(** Ascending sort (the order numpy's partition exposes to [percentile]). *)
Fixpoint insert_sorted (x : fl) (l : list fl) : list fl :=
  match l with
  | [] => [x]
  | y :: l' => if fleb x y then x :: l else y :: insert_sorted x l'
  end.

Definition np_sort (a : list fl) : list fl := fold_right insert_sorted [] a.

(** numpy's [_lerp]. *)
Definition lerp (a b t : fl) : fl :=
  let diff_b_a := (b - a)%fl in
  if fleb (Fin (1 # 2)) t
  then (b - diff_b_a * (one - t))%fl
  else (a + diff_b_a * t)%fl.

(** [np.percentile(a, q)] with the default linear interpolation.  A
    percentile outside [0, 100] raises [ValueError]; an array holding a
    [nan], or an empty one, gives [nan]. *)
Definition np_percentile (a : list fl) (q : fl) : result fl :=
  match (q / Fin 100)%fl with
  | Fin quant =>
      if Qle_bool 0 quant && Qle_bool quant 1 then
        if existsb is_nan a then Ok NaN
        else
          match length a with
          | O => Ok NaN
          | S m =>
              let arr := np_sort a in
              let virtual_index := quant * inject_Z (Z.of_nat m) in
              let previous := Qfloor virtual_index in
              let gamma := virtual_index - inject_Z previous in
              let previous_index := Z.to_nat previous in
              let next_index := Nat.min (S previous_index) m in
              Ok (lerp (nth previous_index arr NaN) (nth next_index arr NaN)
                       (Fin gamma))
          end
      else Raise ValueError
  | _ => Raise ValueError
  end.

Fixpoint set_last (l : list fl) (x : fl) : list fl :=
  match l with
  | [] => []
  | [_] => [x]
  | y :: l' => y :: set_last l' x
  end.

(** [np.linspace(start, stop, num)] with [endpoint=True]. *)
Definition np_linspace (start stop : fl) (num : Z) : result (list fl) :=
  if (num <? 0)%Z then Raise ValueError
  else
    let n := Z.to_nat num in
    let delta := (stop - start)%fl in
    if (1 <? n)%nat then
      let step := (delta / of_nat (n - 1))%fl in
      Ok (set_last (map (fun i => (of_nat i * step + start)%fl) (seq 0 n)) stop)
    else
      Ok (map (fun i => (of_nat i * delta + start)%fl) (seq 0 n)).

End Numpy.
Import Numpy.

(** ** pandas

    A [Series] is the list of its values; a [DataFrame] is a list of column
    labels and the list of its rows.  Reductions skip [nan] ([skipna=True]). *)

Module Pandas.

Definition dropna (s : list fl) : list fl :=
  List.filter (fun x => negb (is_nan x)) s.

Definition pd_count (s : list fl) : nat := length (dropna s).

Definition pd_sum (s : list fl) : fl := np_sum (dropna s).

Definition pd_mean (s : list fl) : fl :=
  match pd_count s with
  | O => NaN
  | n => (pd_sum s / of_nat n)%fl
  end.

(** Sample variance and standard deviation, [ddof=1]: [nan] for fewer than
    two observations. *)
Definition pd_var (s : list fl) : fl :=
  let vals := dropna s in
  let count := length vals in
  if (count <=? 1)%nat then NaN
  else
    let avg := (np_sum vals / of_nat count)%fl in
    let sqr := map (fun x => ((avg - x) * (avg - x))%fl) vals in
    (np_sum sqr / of_nat (count - 1))%fl.

Definition pd_std `{L : Libm} (s : list fl) : fl := np_sqrt (pd_var s).

Definition fmin (x y : fl) : fl := if fleb x y then x else y.
Definition fmax (x y : fl) : fl := if fleb x y then y else x.

Definition pd_min (s : list fl) : fl :=
  match dropna s with
  | [] => NaN
  | x :: l => fold_left fmin l x
  end.

(** [s.pct_change()]: the first entry has no predecessor. *)
Fixpoint pct_change_from (prev : fl) (s : list fl) : list fl :=
  match s with
  | [] => []
  | x :: s' => (x / prev - one)%fl :: pct_change_from x s'
  end.

Definition pct_change (s : list fl) : list fl :=
  match s with
  | [] => []
  | x :: s' => NaN :: pct_change_from x s'
  end.

(** [s.cumprod()]: a [nan] entry stays [nan] and is left out of the
    running product. *)
Fixpoint cumprod_from (acc : fl) (s : list fl) : list fl :=
  match s with
  | [] => []
  | x :: s' =>
      if is_nan x then NaN :: cumprod_from acc s'
      else (acc * x)%fl :: cumprod_from (acc * x)%fl s'
  end.

Definition cumprod (s : list fl) : list fl := cumprod_from one s.

(** [s.expanding().max()]: the maximum of the valid entries seen so far. *)
Fixpoint expanding_max_from (acc : option fl) (s : list fl) : list fl :=
  match s with
  | [] => []
  | x :: s' =>
      let acc' :=
        if is_nan x then acc
        else match acc with
             | None => Some x
             | Some m => Some (fmax m x)
             end in
      match acc' with
      | None => NaN
      | Some m => m
      end :: expanding_max_from acc' s'
  end.

Definition expanding_max (s : list fl) : list fl := expanding_max_from None s.

Record DataFrame : Type := {
  columns : list string;
  rows : list (list fl)
}.

Definition column (df : DataFrame) (j : nat) : list fl :=
  map (fun row => nth j row NaN) df.(rows).

Definition column_indices (df : DataFrame) : list nat :=
  seq 0 (length df.(columns)).

(** [df.mean()]: one mean per column. *)
Definition df_mean (df : DataFrame) : list fl :=
  map (fun j => pd_mean (column df j)) (column_indices df).

(** Sample covariance of two aligned columns, [ddof=1]. *)
Definition cov_pair (x y : list fl) : fl :=
  let n := length x in
  if (n <=? 1)%nat then NaN
  else
    let mx := (np_sum x / of_nat n)%fl in
    let my := (np_sum y / of_nat n)%fl in
    (np_sum (map2 (fun a b => ((a - mx) * (b - my))%fl) x y)
       / of_nat (n - 1))%fl.

(** [df.cov()]: the matrix of pairwise covariances (a [nan]-free frame). *)
Definition df_cov (df : DataFrame) : list (list fl) :=
  map (fun i => map (fun j => cov_pair (column df i) (column df j))
                    (column_indices df))
      (column_indices df).

Definition scale_matrix (m : list (list fl)) (k : fl) : list (list fl) :=
  map (map (fun x => (x * k)%fl)) m.

(** [(df * w).sum(axis=1)]: the weighted sum of every row; the weight array
    must have one entry per column. *)
Definition weighted_row_sums (df : DataFrame) (w : list fl)
  : result (list fl) :=
  if (length w =? length df.(columns))%nat
  then Ok (map (fun row => pd_sum (map2 fmul row w)) df.(rows))
  else Raise ValueError.

End Pandas.
Import Pandas.

(** [a.mean()] on a numpy array: no [nan] is skipped, the empty array
    gives [0/0 = nan]. *)
Definition np_mean (a : list fl) : fl := (np_sum a / of_nat (length a))%fl.

(** [s.iloc[i]] with Python's negative indices. *)
Definition iloc (s : list fl) (i : Z) : result fl :=
  let n := Z.of_nat (length s) in
  let k := if (i <? 0)%Z then (n + i)%Z else i in
  if ((k <? 0) || (n <=? k))%Z then Raise IndexError
  else match nth_error s (Z.to_nat k) with
       | Some v => Ok v
       | None => Raise IndexError
       end.

(** ** Further numpy and pandas operations *)

Definition fabs (x : fl) : fl :=
  match x with
  | Fin q => Fin (Qabs q)
  | PInf | NInf => PInf
  | NaN => NaN
  end.


(** [s.shift(k)]: the values move [k] places down (up for a negative [k]),
    the vacated places hold [nan]. *)
Definition shift (k : Z) (s : list fl) : list fl :=
  let n := length s in
  if (0 <=? k)%Z then
    let j := Nat.min (Z.to_nat k) n in
    repeat NaN j ++ firstn (n - j) s
  else
    let j := Nat.min (Z.to_nat (- k)) n in
    skipn j s ++ repeat NaN j.

(** [s.pct_change(periods=k)], that is [s / s.shift(k) - 1]. *)
Definition pct_change_periods (k : Z) (s : list fl) : list fl :=
  map2 (fun x prev => (x / prev - one)%fl) s (shift k s).

(** [s.nsmallest(n)]: the [n] smallest valid values in ascending order,
    none for [n <= 0]. *)
Definition nsmallest (n : Z) (s : list fl) : list fl :=
  firstn (Z.to_nat n) (np_sort (dropna s)).

(** [int(x)] on a finite float: truncation towards zero. *)
Definition py_int (q : Q) : Z :=
  if Qle_bool 0 q then Qfloor q else Qceiling q.

(** [a.cov(b)] on two series with a shared index: the pairs with a missing
    value are dropped, then the sample covariance ([ddof=1]) is taken. *)
Definition series_cov (a b : list fl) : fl :=
  let pairs :=
    List.filter (fun p => negb (is_nan (fst p)) && negb (is_nan (snd p)))
                (combine a b) in
  cov_pair (map fst pairs) (map snd pairs).

(** numpy's natural logarithm. *)
Class NumpyLog : Type := {
  np_log : fl -> fl
}.

(** ** models.py *)

Module FinancialModel.

Record FinancialMetrics : Type := {
  annualized_return : fl;
  annualized_volatility : fl;
  sharpe_ratio : fl;
  sortino_ratio : fl;
  max_drawdown : fl;
  cumulative_return : fl
}.

Record t : Type := {
  prices : list fl;
  risk_free_rate : fl;
  returns : list fl
}.

(** [FinancialModel.__init__]. *)
Definition init (prices : list fl) (risk_free_rate : fl) : t :=
  {| prices := prices;
     risk_free_rate := risk_free_rate;
     returns := dropna (pct_change prices) |}.

Section Methods.
Context `{L : Libm}.

Definition calculate_annualized_return (self : t) : result fl :=
  let* last := iloc self.(prices) (-1) in
  let* first := iloc self.(prices) 0 in
  let total_return := (last / first - one)%fl in
  let* years := py_div (of_nat (length self.(prices))) (Fin 252) in
  if (years =? zero)%fl then Ok zero
  else
    let* exponent := py_div one years in
    Ok (powf (one + total_return) exponent - one)%fl.

Definition calculate_annualized_volatility (self : t) : fl :=
  (pd_std self.(returns) * np_sqrt (Fin 252))%fl.

Definition calculate_sharpe_ratio (self : t)
    (annualized_return volatility : option fl) : result fl :=
  let* annualized_return :=
    match annualized_return with
    | None => calculate_annualized_return self
    | Some r => Ok r
    end in
  let volatility :=
    match volatility with
    | None => calculate_annualized_volatility self
    | Some v => v
    end in
  if (volatility =? zero)%fl then Ok zero
  else Ok ((annualized_return - self.(risk_free_rate)) / volatility)%fl.

Definition calculate_sortino_ratio (self : t)
    (annualized_return : option fl) (target_return : fl) : result fl :=
  let* annualized_return :=
    match annualized_return with
    | None => calculate_annualized_return self
    | Some r => Ok r
    end in
  let downside_returns :=
    List.filter (fun r => (r <? target_return)%fl) self.(returns) in
  let downside_volatility := (pd_std downside_returns * np_sqrt (Fin 252))%fl in
  if (downside_volatility =? zero)%fl then Ok zero
  else Ok ((annualized_return - target_return) / downside_volatility)%fl.

Definition calculate_max_drawdown (self : t) : fl :=
  let cumulative := cumprod (map (fadd one) self.(returns)) in
  let running_max := expanding_max cumulative in
  let drawdown :=
    map2 (fun c m => ((c - m) / m)%fl) cumulative running_max in
  pd_min drawdown.

(** [(1 + returns).prod()]. *)
Definition pd_prod (s : list fl) : fl := fold_left fmul (dropna s) one.

Definition calculate_metrics (self : t) : result FinancialMetrics :=
  let* ann_return := calculate_annualized_return self in
  let ann_volatility := calculate_annualized_volatility self in
  let* sharpe :=
    calculate_sharpe_ratio self (Some ann_return) (Some ann_volatility) in
  let* sortino := calculate_sortino_ratio self (Some ann_return) zero in
  let max_dd := calculate_max_drawdown self in
  let cum_return := (pd_prod (map (fadd one) self.(returns)) - one)%fl in
  Ok {| annualized_return := ann_return;
        annualized_volatility := ann_volatility;
        sharpe_ratio := sharpe;
        sortino_ratio := sortino;
        max_drawdown := max_dd;
        cumulative_return := cum_return |}.

End Methods.
End FinancialModel.

Module PortfolioModel.

Record t : Type := {
  returns : DataFrame;
  weights : list fl;
  risk_free_rate : fl
}.

(** [PortfolioModel.__init__]: equal weights unless weights are given. *)
Definition init (returns : DataFrame) (weights : option (list fl))
    (risk_free_rate : fl) : result t :=
  let* weights :=
    match weights with
    | Some w => Ok w
    | None =>
        let n := length returns.(columns) in
        let* w := py_div one (of_nat n) in
        Ok (repeat w n)
    end in
  Ok {| returns := returns; weights := weights;
        risk_free_rate := risk_free_rate |}.

Section Methods.
Context `{L : Libm}.

Definition calculate_portfolio_return (self : t) : fl :=
  (pd_sum (map2 fmul (df_mean self.(returns)) self.(weights)) * Fin 252)%fl.

Definition calculate_portfolio_volatility (self : t) : fl :=
  let cov_matrix := scale_matrix (df_cov self.(returns)) (Fin 252) in
  let portfolio_var :=
    np_dot self.(weights) (np_matvec cov_matrix self.(weights)) in
  np_sqrt portfolio_var.

Definition calculate_portfolio_sharpe (self : t) : fl :=
  let ret := calculate_portfolio_return self in
  let vol := calculate_portfolio_volatility self in
  if (vol =? zero)%fl then zero
  else ((ret - self.(risk_free_rate)) / vol)%fl.

Definition portfolio_returns (self : t) : result (list fl) :=
  weighted_row_sums self.(returns) self.(weights).

Definition calculate_var (self : t) (confidence : fl) : result fl :=
  let* portfolio_returns := portfolio_returns self in
  np_percentile portfolio_returns ((one - confidence) * Fin 100)%fl.

Definition calculate_cvar (self : t) (confidence : fl) : result fl :=
  let* portfolio_returns := portfolio_returns self in
  let* var :=
    np_percentile portfolio_returns ((one - confidence) * Fin 100)%fl in
  Ok (pd_mean (List.filter (fun r => (r <=? var)%fl) portfolio_returns)).


Definition calculate_covariance_matrix (self : t) : list (list fl) :=
  scale_matrix (df_cov self.(returns)) (Fin 252).

Definition calculate_beta (self : t) (market_returns : list fl)
  : result fl :=
  let* portfolio_returns := portfolio_returns self in
  let covariance := series_cov portfolio_returns market_returns in
  let market_variance := pd_var market_returns in
  if (market_variance =? zero)%fl then Ok zero
  else Ok (covariance / market_variance)%fl.

Definition get_metrics_summary (self : t) : result (gmap string fl) :=
  let ret := calculate_portfolio_return self in
  let vol := calculate_portfolio_volatility self in
  let sharpe := calculate_portfolio_sharpe self in
  let* var_95 := calculate_var self (Fin (95 # 100)) in
  let* cvar_95 := calculate_cvar self (Fin (95 # 100)) in
  Ok (<["return" := ret]>
      (<["volatility" := vol]>
       (<["sharpe_ratio" := sharpe]>
        (<["var_95" := var_95]>
         (<["cvar_95" := cvar_95]> ∅))))).

End Methods.
End PortfolioModel.

(** ** metrics.py *)

(** numpy's process-global random generator: [np.random.seed] resets its
    state, [np.random.normal(loc, scale, size)] reads and advances it. *)
Class NumpyRandom : Type := {
  rng_state : Type;
  random_seed : Z -> rng_state;
  random_normal : fl -> fl -> nat -> rng_state -> list fl * rng_state
}.

Module MetricsCalculator.

Section Methods.
Context `{L : Libm} `{R : NumpyRandom}.

(** The function has the parameters [returns], [confidence] and
    [simulations]; the generator state [g] is the global one at the time of
    the call, and the state after the call is returned with the result. *)
Definition calculate_monte_carlo_var (returns : list fl) (confidence : fl)
    (simulations : Z) (g : rng_state) : result (fl * fl) * rng_state :=
  let mean := pd_mean returns in
  let std := pd_std returns in
  if (simulations <? 0)%Z then (Raise ValueError, g)
  else
    let '(simulated_returns, g') :=
      random_normal mean std (Z.to_nat simulations) g in
    (let* var :=
       np_percentile simulated_returns ((one - confidence) * Fin 100)%fl in
     let cvar :=
       np_mean (List.filter (fun r => (r <=? var)%fl) simulated_returns) in
     Ok (var, cvar),
     g').

Definition calculate_returns `{NumpyLog} (prices : list fl) (method : string)
    (periods : Z) : list fl :=
  if String.eqb method "log"
  then map np_log (map2 fdiv prices (shift periods prices))
  else pct_change_periods periods prices.

Definition calculate_cumulative_returns (returns : list fl) : list fl :=
  map (fun c => (c - one)%fl) (cumprod (map (fadd one) returns)).

Definition calculate_volatility (returns : list fl) (periods_per_year : Z)
  : fl :=
  (pd_std returns * np_sqrt (of_Z periods_per_year))%fl.


Definition calculate_recovery_factor (total_return max_drawdown : fl)
  : result fl :=
  if (max_drawdown =? zero)%fl then Ok zero
  else py_div total_return (fabs max_drawdown).

Definition calculate_calmar_ratio (annualized_return max_drawdown : fl)
  : result fl :=
  if (max_drawdown =? zero)%fl then Ok zero
  else py_div annualized_return (fabs max_drawdown).

Definition calculate_information_ratio
    (portfolio_returns benchmark_returns : list fl) (periods_per_year : Z)
  : fl :=
  let excess_returns := map2 fsub portfolio_returns benchmark_returns in
  let tracking_error :=
    (pd_std excess_returns * np_sqrt (of_Z periods_per_year))%fl in
  if (tracking_error =? zero)%fl then zero
  else
    let mean_excess := (pd_mean excess_returns * of_Z periods_per_year)%fl in
    (mean_excess / tracking_error)%fl.

Definition calculate_treynor_ratio (portfolio_return beta risk_free_rate : fl)
  : result fl :=
  if (beta =? zero)%fl then Ok zero
  else py_div (portfolio_return - risk_free_rate)%fl beta.

Definition calculate_herfindahl_index (weights : list fl) : fl :=
  pd_sum (map (fun w => (w * w)%fl) weights).

Definition calculate_effective_n (weights : list fl) : fl :=
  let hhi := pd_sum (map (fun w => (w * w)%fl) weights) in
  if (hhi =? zero)%fl then zero
  else (one / hhi)%fl.

Definition calculate_stress_test (returns : list fl) (percentile : Q)
  : gmap string fl :=
  let worst_returns :=
    nsmallest
      (py_int (inject_Z (Z.of_nat (length returns)) * percentile / 100))
      returns in
  <["worst_return" := pd_min worst_returns]>
  (<["avg_worst_return" := pd_mean worst_returns]>
   (<["worst_5_return" := pd_mean (nsmallest 5 returns)]>
    (<["worst_10_return" := pd_mean (nsmallest 10 returns)]> ∅))).

End Methods.
End MetricsCalculator.

(** ** optimization.py *)

(** scipy's [minimize].  The returned [OptimizeResult] carries the final
    iterate [x] and the [success] flag of the solver; a call may also raise. *)
Record Constraint : Type := {
  ctype : string;
  cfun : list fl -> fl
}.

Record OptimizeResult : Type := {
  x : list fl;
  success : bool
}.

Class Scipy : Type := {
  minimize :
    (list fl -> fl) -> list fl -> string -> list (fl * fl) ->
    list Constraint -> fl -> result OptimizeResult
}.

Module PortfolioOptimizer.

Record OptimizationResult : Type := {
  weights : list fl;
  expected_return : fl;
  volatility : fl;
  sharpe_ratio : fl
}.

Record t : Type := {
  returns : DataFrame;
  risk_free_rate : fl;
  min_weight : fl;
  max_weight : fl;
  expected_returns : list fl;
  cov_matrix : list (list fl);
  assets : list string
}.

(** [PortfolioOptimizer.__init__]. *)
Definition init (returns : DataFrame)
    (risk_free_rate min_weight max_weight : fl) : t :=
  {| returns := returns;
     risk_free_rate := risk_free_rate;
     min_weight := min_weight;
     max_weight := max_weight;
     expected_returns := map (fun m => (m * Fin 252)%fl) (df_mean returns);
     cov_matrix := scale_matrix (df_cov returns) (Fin 252);
     assets := returns.(columns) |}.

Definition ftol : fl := Fin (1 # 1000000000).

Section Methods.
Context `{L : Libm}.

Definition _calculate_portfolio_metrics (self : t) (weights : list fl)
  : fl * fl * fl :=
  let portfolio_return := np_sum (map2 fmul self.(expected_returns) weights) in
  let portfolio_variance :=
    np_dot weights (np_matvec self.(cov_matrix) weights) in
  let portfolio_volatility := np_sqrt portfolio_variance in
  let sharpe_ratio :=
    ((portfolio_return - self.(risk_free_rate)) / portfolio_volatility)%fl in
  (portfolio_return, portfolio_volatility, sharpe_ratio).

Definition _negative_sharpe (self : t) (weights : list fl) : fl :=
  let '(_, _, sharpe) := _calculate_portfolio_metrics self weights in
  fneg sharpe.

Definition _portfolio_volatility (self : t) (weights : list fl) : fl :=
  let '(_, volatility, _) := _calculate_portfolio_metrics self weights in
  volatility.

Definition _negative_return (self : t) (weights : list fl) : fl :=
  let '(return_val, _, _) := _calculate_portfolio_metrics self weights in
  fneg return_val.

(** The record every operation builds from a weight array. *)
Definition result_of (self : t) (w : list fl) : OptimizationResult :=
  let '(ret, vol, sharpe) := _calculate_portfolio_metrics self w in
  {| weights := w; expected_return := ret; volatility := vol;
     sharpe_ratio := sharpe |}.

(** [np.array([1 / n_assets] * n_assets)]. *)
Definition initial_weights (self : t) : result (list fl) :=
  let n_assets := length self.(assets) in
  let* w := py_div one (of_nat n_assets) in
  Ok (repeat w n_assets).

Definition bounds (self : t) : list (fl * fl) :=
  repeat (self.(min_weight), self.(max_weight)) (length self.(assets)).

Definition sum_to_one : Constraint :=
  {| ctype := "eq"; cfun := fun x => (np_sum x - one)%fl |}.

Definition hits_target (self : t) (target_return : fl) : Constraint :=
  {| ctype := "eq";
     cfun := fun x =>
       (np_sum (map2 fmul self.(expected_returns) x) - target_return)%fl |}.

Section Solver.
Context `{S : Scipy}.

Definition optimize_max_sharpe (self : t) : result OptimizationResult :=
  let* initial_weights := initial_weights self in
  let* result :=
    minimize (_negative_sharpe self) initial_weights "SLSQP" (bounds self)
             [sum_to_one] ftol in
  Ok (result_of self result.(x)).

Definition optimize_min_volatility (self : t) : result OptimizationResult :=
  let* initial_weights := initial_weights self in
  let* result :=
    minimize (_portfolio_volatility self) initial_weights "SLSQP"
             (bounds self) [sum_to_one] ftol in
  Ok (result_of self result.(x)).

Definition optimize_max_return (self : t) : result OptimizationResult :=
  let* initial_weights := initial_weights self in
  let* result :=
    minimize (_negative_return self) initial_weights "SLSQP" (bounds self)
             [sum_to_one] ftol in
  Ok (result_of self result.(x)).

Definition optimize_target_return (self : t) (target_return : fl)
  : result OptimizationResult :=
  let* initial_weights := initial_weights self in
  let* result :=
    minimize (_portfolio_volatility self) initial_weights "SLSQP"
             (bounds self) [sum_to_one; hits_target self target_return]
             ftol in
  Ok (result_of self result.(x)).

(** The loop body of [generate_efficient_frontier]: a target whose
    optimization raises is passed over ([except: continue]). *)
Fixpoint frontier_loop (self : t) (target_returns : list fl)
    (volatilities returns sharpes : list fl)
  : list fl * list fl * list fl :=
  match target_returns with
  | [] => (volatilities, returns, sharpes)
  | target_ret :: rest =>
      match optimize_target_return self target_ret with
      | Ok result =>
          frontier_loop self rest
            (volatilities ++ [result.(volatility)])
            (returns ++ [result.(expected_return)])
            (sharpes ++ [result.(sharpe_ratio)])
      | Raise _ => frontier_loop self rest volatilities returns sharpes
      end
  end.

Definition frontier_targets (self : t) (num_portfolios : Z)
  : result (list fl) :=
  let* min_vol := optimize_min_volatility self in
  let min_ret := min_vol.(expected_return) in
  let* max_return := optimize_max_return self in
  let max_ret := max_return.(expected_return) in
  np_linspace min_ret max_ret num_portfolios.

Definition generate_efficient_frontier (self : t) (num_portfolios : Z)
  : result (gmap string (list fl)) :=
  let* target_returns := frontier_targets self num_portfolios in
  let '(volatilities, returns, sharpes) :=
    frontier_loop self target_returns [] [] [] in
  Ok (<["volatilities" := volatilities]>
      (<["returns" := returns]>
       (<["sharpe_ratios" := sharpes]> ∅))).

End Solver.

Definition equal_weight (self : t) : result OptimizationResult :=
  let n_assets := length self.(assets) in
  let* w := py_div one (of_nat n_assets) in
  let weights := repeat w n_assets in
  Ok (result_of self weights).

Definition cap_weight (self : t) (market_caps : gmap string fl)
  : OptimizationResult :=
  let caps := map (fun asset => default one (market_caps !! asset))
                  self.(assets) in
  let total := np_sum caps in
  let weights := map (fun c => (c / total)%fl) caps in
  result_of self weights.

End Methods.
End PortfolioOptimizer.

(** ** Sample instances of the external interfaces

    They run the model on concrete inputs.  [sqrtQ_sample] is exact on
    quotients of perfect squares, [powf_sample] on integer exponents. *)

Definition sqrtQ_sample (q : Q) : Q :=
  Z.sqrt (Qnum q * QDen q * 10 ^ 24) # (Qden q * 10 ^ 12).

Definition powf_sample (x y : fl) : fl :=
  match x, y with
  | Fin a, Fin b =>
      if Qeq_bool a 1 then Fin 1
      else if Qeq_bool b (inject_Z (Qfloor b)) then
        if Qeq_bool a 0 && (Qfloor b <? 0)%Z then PInf
        else Fin (Qpower a (Qfloor b))
      else NaN
  | _, _ => NaN
  end.

Definition sample_libm : Libm :=
  {| sqrtQ := sqrtQ_sample; powf := powf_sample |}.

(** A generator whose state is a counter: draw [i] of a call made in state
    [g] is [loc + scale * (((g + i) mod 5) - 2)]. *)
Definition counter_normal (loc scale : fl) (size : nat) (g : Z)
  : list fl * Z :=
  (map (fun i =>
          (loc + scale * of_Z ((g + Z.of_nat i) mod 5 - 2))%fl)
       (seq 0 size),
   (g + Z.of_nat size)%Z).

Definition counter_rng : NumpyRandom :=
  {| rng_state := Z; random_seed := fun k => k;
     random_normal := counter_normal |}.

(** A solver that gives up at once: it hands back the initial guess and
    reports failure. *)
Definition stalled_solver : Scipy :=
  {| minimize := fun _ x0 _ _ _ _ => Ok {| x := x0; success := false |} |}.

(** A solver that hands back the initial guess, but raises whenever one of
    the constraints is off by more than one at the initial guess. *)
Definition picky_solver : Scipy :=
  {| minimize := fun _ x0 _ _ cons _ =>
       if forallb (fun c => (c.(cfun) x0 <=? one)%fl) cons
       then Ok {| x := x0; success := true |}
       else Raise SolverException |}.

(** [with_success b S] is the solver [S] with its success flag forced to
    [b]. *)
Definition with_success (b : bool) (S : Scipy) : Scipy :=
  {| minimize := fun f x0 method bnds cons tol =>
       match @minimize S f x0 method bnds cons tol with
       | Ok r => Ok {| x := r.(x); success := b |}
       | Raise e => Raise e
       end |}.

(** ** Properties the claims speak about *)

(** A valid weight vector: it sums to one within [1e-6] and every component
    lies within the configured bounds. *)
Definition sums_to_one (w : list fl) : bool :=
  match np_sum w with
  | Fin s => Qle_bool (Qabs (s - 1)) (1 # 1000000)
  | _ => false
  end.

Definition within_bounds (lo hi : fl) (w : list fl) : bool :=
  forallb (fun wi => (lo <=? wi)%fl && (wi <=? hi)%fl) w.

Definition valid_weights (self : PortfolioOptimizer.t) (w : list fl) : bool :=
  sums_to_one w
  && within_bounds self.(PortfolioOptimizer.min_weight)
                   self.(PortfolioOptimizer.max_weight) w.

Definition all_finite (l : list fl) : Prop :=
  Forall (fun x => is_finite x = true) l.

Definition Qsum (l : list Q) : Q := fold_left Qplus l 0.

(** A path that never falls. *)
Fixpoint nondecreasing (l : list fl) : Prop :=
  match l with
  | [] => True
  | x :: l' =>
      match l' with
      | [] => True
      | y :: _ => fle x y
      end /\ nondecreasing l'
  end.

(** The points of a sweep whose optimization returns, in sweep order, and
    the number of those that raise. *)
Definition successful_points `{L : Libm} `{S : Scipy} (self : PortfolioOptimizer.t)
    (targets : list fl) : list PortfolioOptimizer.OptimizationResult :=
  flat_map (fun t =>
              match PortfolioOptimizer.optimize_target_return self t with
              | Ok r => [r]
              | Raise _ => []
              end) targets.

Definition skipped_points `{L : Libm} `{S : Scipy} (self : PortfolioOptimizer.t)
    (targets : list fl) : nat :=
  length (List.filter (fun t =>
                    match PortfolioOptimizer.optimize_target_return self t with
                    | Ok _ => false
                    | Raise _ => true
                    end) targets).

(** The laws of the numeric library the proofs rely on. *)
Class LibmLaws (L : Libm) : Prop := {
  sqrtQ_zero : forall q, q == 0 -> sqrtQ q == 0;
  powf_proper : forall x x' y y',
      feq x x' -> feq y y' -> feq (powf x y) (powf x' y');
  powf_base_one : forall b, feq (powf (Fin 1) (Fin b)) (Fin 1)
}.

(** ** Sample inputs *)

(** One asset whose two daily returns are both 1%: its covariance is 0. *)
Definition flat_returns : DataFrame :=
  {| columns := ["VAS.AX"]; rows := [[Fin (1 # 100)]; [Fin (1 # 100)]] |}.

Definition flat_optimizer : PortfolioOptimizer.t :=
  PortfolioOptimizer.init flat_returns (Fin (4 # 100)) zero one.

(** Five daily returns of one asset, held at weight 1. *)
Definition tail_frame : DataFrame :=
  {| columns := ["VGS.AX"];
     rows := [[Fin (-5 # 100)]; [Fin (-2 # 100)]; [Fin (1 # 100)];
              [Fin (2 # 100)]; [Fin (3 # 100)]] |}.

Definition tail_portfolio : PortfolioModel.t :=
  {| PortfolioModel.returns := tail_frame;
     PortfolioModel.weights := [one];
     PortfolioModel.risk_free_rate := Fin (4 # 100) |}.

(** Two assets over three days. *)
Definition pair_returns : DataFrame :=
  {| columns := ["VAS.AX"; "VGS.AX"];
     rows := [[Fin (1 # 100); Fin (2 # 100)];
              [Fin (3 # 100); Fin (-1 # 100)];
              [Fin (-2 # 100); Fin (2 # 100)]] |}.

(** The default bounds [0, 1], and weights capped at 0.6. *)
Definition pair_optimizer : PortfolioOptimizer.t :=
  PortfolioOptimizer.init pair_returns (Fin (4 # 100)) zero one.

Definition capped_optimizer : PortfolioOptimizer.t :=
  PortfolioOptimizer.init pair_returns (Fin (4 # 100)) zero (Fin (6 # 10)).

Definition pair_caps : gmap string fl :=
  <["VAS.AX" := Fin 9]> (<["VGS.AX" := Fin 1]> ∅).

(** A solver that only tries the initial guess and the corners of the
    simplex: among those that meet every constraint exactly and lie within
    the bounds it returns the one with the least objective; it raises when
    there is none. *)
Definition unit_vectors (n : nat) : list (list fl) :=
  map (fun i => map (fun j => if (i =? j)%nat then one else zero) (seq 0 n))
      (seq 0 n).

Definition feasible (bnds : list (fl * fl)) (cons : list Constraint)
    (x : list fl) : bool :=
  forallb (fun c => (c.(cfun) x =? zero)%fl) cons
  && forallb (fun p => (fst (snd p) <=? fst p)%fl && (fst p <=? snd (snd p))%fl)
             (combine x bnds).

Definition corner_solver : Scipy :=
  {| minimize := fun f x0 _ bnds cons _ =>
       match List.filter (feasible bnds cons)
                         (x0 :: unit_vectors (length x0)) with
       | [] => Raise SolverException
       | c :: cs =>
           Ok {| x := fold_left (fun best y =>
                                   if (f y <? f best)%fl then y else best)
                                cs c;
                 success := true |}
       end |}.

(** What an operation makes of the outcome of [minimize]. *)
Definition outcome `{L : Libm} (self : PortfolioOptimizer.t)
    (r : result OptimizeResult)
  : result PortfolioOptimizer.OptimizationResult :=
  match r with
  | Ok res => Ok (PortfolioOptimizer.result_of self res.(x))
  | Raise e => Raise e
  end.

Definition frontier_keys : gset string :=
  {["volatilities"; "returns"; "sharpe_ratios"]}.

(** ** Programs over the global random generator *)

Section RandomPrograms.
Context `{L : Libm} `{R : NumpyRandom}.

(** [np.random.seed(k)]. *)
Definition np_random_seed (k : Z) (g : rng_state) : unit * rng_state :=
  (tt, random_seed k).

(** [r1 = calculate_monte_carlo_var(...); r2 = calculate_monte_carlo_var(...)]
    with the same arguments. *)
Definition two_calls (returns : list fl) (confidence : fl) (simulations : Z)
    (g : rng_state) : result (fl * fl) * result (fl * fl) :=
  let '(r1, g1) :=
    MetricsCalculator.calculate_monte_carlo_var returns confidence
      simulations g in
  let '(r2, _) :=
    MetricsCalculator.calculate_monte_carlo_var returns confidence
      simulations g1 in
  (r1, r2).

(** The same with [np.random.seed(k)] before each call. *)
Definition two_reseeded_calls (k : Z) (returns : list fl) (confidence : fl)
    (simulations : Z) (g : rng_state)
  : result (fl * fl) * result (fl * fl) :=
  let '(_, g1) := np_random_seed k g in
  let '(r1, g2) :=
    MetricsCalculator.calculate_monte_carlo_var returns confidence
      simulations g1 in
  let '(_, g3) := np_random_seed k g2 in
  let '(r2, _) :=
    MetricsCalculator.calculate_monte_carlo_var returns confidence
      simulations g3 in
  (r1, r2).

End RandomPrograms.

(** ** Quantities the further properties speak about *)

Definition Qnat (n : nat) : Q := inject_Z (Z.of_nat n).

Definition Qmean (l : list Q) : Q := Qsum l / Qnat (length l).

(** The simple returns of a price path that follows [prev]. *)
Fixpoint Qreturns_from (prev : Q) (ps : list Q) : list Q :=
  match ps with
  | [] => []
  | p :: ps' => (p / prev + - (1)) :: Qreturns_from p ps'
  end.

(** A frame with at least one row whose rows are finite and as long as the
    list of columns. *)
Definition finite_frame (df : DataFrame) : Prop :=
  df.(rows) <> []
  /\ Forall (fun row => all_finite row
                        /\ length row = length df.(columns)) df.(rows).

(** A logarithm that is exact at 1 and undefined elsewhere. *)
Definition sample_log : NumpyLog :=
  {| np_log := fun x =>
       match x with
       | Fin q => if Qeq_bool q 1 then Fin 0 else NaN
       | _ => NaN
       end |}.

(** The dictionary of a sweep without points. *)
Definition empty_frontier : gmap string (list fl) :=
  <["volatilities" := []]> (<["returns" := []]> (<["sharpe_ratios" := []]> ∅)).

(** A frame of two rows and no column. *)
Definition no_columns : DataFrame := {| columns := []; rows := [[]; []] |}.

(** The linear-interpolation quantile of a sorted list of rationals. *)
Definition Qpercentile (srt : list Q) (quant : Q) : Q :=
  let m := (length srt - 1)%nat in
  let virt := quant * Qnat m in
  let prev := Z.to_nat (Qfloor virt) in
  let a := nth prev srt 0 in
  let b := nth (Nat.min (S prev) m) srt 0 in
  a + (b - a) * (virt - inject_Z (Qfloor virt)).

(** ** The historical risk measures on binary64 values

    The same code as [PortfolioModel.calculate_var] and
    [PortfolioModel.calculate_cvar], with every arithmetic operation rounded
    as IEEE-754 binary64 does (the primitive floats). *)

Module Binary64.

Definition of_Z (z : Z) : float :=
  if (z <? 0)%Z then PrimFloat.opp (PrimFloat.of_uint63 (Uint63.of_Z (- z)))
  else PrimFloat.of_uint63 (Uint63.of_Z z).

Definition of_nat (n : nat) : float := of_Z (Z.of_nat n).

(** The float of the decimal literal [n / d]: the quotient rounded once. *)
Definition decimal (n d : Z) : float := PrimFloat.div (of_Z n) (of_Z d).

Definition is_nan (x : float) : bool := negb (PrimFloat.eqb x x).

Definition np_sum (a : list float) : float :=
  fold_left PrimFloat.add a (of_Z 0).

Fixpoint insert_sorted (x : float) (l : list float) : list float :=
  match l with
  | [] => [x]
  | y :: l' =>
      if PrimFloat.leb x y then x :: l else y :: insert_sorted x l'
  end.

Definition np_sort (a : list float) : list float :=
  fold_right insert_sorted [] a.

(** numpy's [_lerp]. *)
Definition lerp (a b t : float) : float :=
  let diff_b_a := PrimFloat.sub b a in
  if PrimFloat.leb (decimal 1 2) t
  then PrimFloat.sub b (PrimFloat.mul diff_b_a (PrimFloat.sub (of_Z 1) t))
  else PrimFloat.add a (PrimFloat.mul diff_b_a t).

(** [np.floor] of an index between [0] and [k]: the largest [j <= k] that
    is not above [v]. *)
Fixpoint floor_index (k : nat) (v : float) : nat :=
  match k with
  | O => O
  | S k' => if PrimFloat.leb (of_nat k) v then k else floor_index k' v
  end.

(** [np.percentile(a, q)] with the default linear interpolation. *)
Definition np_percentile (a : list float) (q : float) : result float :=
  let quant := PrimFloat.div q (of_Z 100) in
  if PrimFloat.leb (of_Z 0) quant && PrimFloat.leb quant (of_Z 1) then
    if existsb is_nan a then Ok PrimFloat.nan
    else
      match length a with
      | O => Ok PrimFloat.nan
      | S m =>
          let arr := np_sort a in
          let virtual_index := PrimFloat.mul (of_nat m) quant in
          let previous_index := floor_index m virtual_index in
          let gamma := PrimFloat.sub virtual_index (of_nat previous_index) in
          let next_index := Nat.min (S previous_index) m in
          Ok (lerp (nth previous_index arr PrimFloat.nan)
                   (nth next_index arr PrimFloat.nan) gamma)
      end
  else Raise ValueError.

Definition dropna (s : list float) : list float :=
  List.filter (fun x => negb (is_nan x)) s.

Definition pd_sum (s : list float) : float := np_sum (dropna s).

Definition pd_mean (s : list float) : float :=
  match length (dropna s) with
  | O => PrimFloat.nan
  | n => PrimFloat.div (pd_sum s) (of_nat n)
  end.

Record PortfolioModel : Type := {
  columns : list string;
  rows : list (list float);
  weights : list float
}.

(** [(self.returns * self.weights.values).sum(axis=1)]. *)
Definition portfolio_returns (self : PortfolioModel) : result (list float) :=
  if (length self.(weights) =? length self.(columns))%nat
  then Ok (map (fun row => pd_sum (map2 PrimFloat.mul row self.(weights)))
               self.(rows))
  else Raise ValueError.

Definition calculate_var (self : PortfolioModel) (confidence : float)
  : result float :=
  let* portfolio_returns := portfolio_returns self in
  np_percentile portfolio_returns
    (PrimFloat.mul (PrimFloat.sub (of_Z 1) confidence) (of_Z 100)).

Definition calculate_cvar (self : PortfolioModel) (confidence : float)
  : result float :=
  let* portfolio_returns := portfolio_returns self in
  let* var :=
    np_percentile portfolio_returns
      (PrimFloat.mul (PrimFloat.sub (of_Z 1) confidence) (of_Z 100)) in
  Ok (pd_mean (List.filter (fun r => PrimFloat.leb r var) portfolio_returns)).

End Binary64.


(** [tail_frame] on binary64 values. *)
Definition tail_portfolio64 : Binary64.PortfolioModel :=
  {| Binary64.columns := ["VGS.AX"];
     Binary64.rows := [[Binary64.decimal (-5) 100]; [Binary64.decimal (-2) 100];
                       [Binary64.decimal 1 100]; [Binary64.decimal 2 100];
                       [Binary64.decimal 3 100]];
     Binary64.weights := [Binary64.of_Z 1] |}.

(** ** What a solver is asked for *)

(** The iterate [x] meets the equality constraint [c] within [tol]. *)
Definition meets (tol : Q) (c : Constraint) (x : list fl) : bool :=
  match c.(cfun) x with
  | Fin v => Qle_bool (Qabs v) tol
  | _ => false
  end.

(** The iterate [x] has one component per bound and each lies within its
    bound. *)
Definition within (bnds : list (fl * fl)) (x : list fl) : bool :=
  (length x =? length bnds)%nat
  && forallb (fun p => (fst (snd p) <=? fst p)%fl
                       && (fst p <=? snd (snd p))%fl)
             (combine x bnds).

(** A solver that runs off: it reports failure and hands back twice the
    initial guess. *)
Definition overshooting_solver : Scipy :=
  {| minimize := fun _ x0 _ _ _ _ =>
       Ok {| x := map (fun w => (w + w)%fl) x0; success := false |} |}.

(** Weights capped at 0.4. *)
Definition tight_optimizer : PortfolioOptimizer.t :=
  PortfolioOptimizer.init pair_returns (Fin (4 # 100)) zero (Fin (4 # 10)).

Definition zero_caps : gmap string fl :=
  <["VAS.AX" := Fin 0]> (<["VGS.AX" := Fin 0]> ∅).

Definition mixed_caps : gmap string fl :=
  <["VAS.AX" := Fin 2]> (<["VGS.AX" := Fin (-1)]> ∅).

(** * Proofs *)

(** Replace a closed term by its value. *)
Ltac vm_normalise t :=
  let v := eval vm_compute in t in
  replace t with v by (vm_compute; reflexivity).

(** ** Values and comparisons *)

Lemma Qltb_lt (a b : Q) : Qltb a b = true <-> a < b.
Proof.
  unfold Qltb. rewrite negb_true_iff. split; intros Hab.
  - apply Qnot_le_lt. intros Hle.
    apply Qle_bool_iff in Hle. congruence.
  - destruct (Qle_bool b a) eqn:E; [|reflexivity].
    apply Qle_bool_iff in E. lra.
Qed.

Lemma feqb_zero_inv (y : fl) :
  feqb y zero = true -> exists b, y = Fin b /\ b == 0.
Proof.
  destruct y as [b| | |]; simpl; try discriminate.
  intros Hb. exists b. split; [reflexivity|]. now apply Qeq_bool_iff.
Qed.


Lemma scale_inf_not_finite (pos : bool) (a : Q) :
  is_finite (scale_inf pos a) = false.
Proof.
  unfold scale_inf.
  destruct (Qeq_bool a 0), (Qltb 0 a), pos; reflexivity.
Qed.

(** A numpy division by zero never yields a finite value. *)
Lemma fdiv_zero_not_finite (x y : fl) :
  feqb y zero = true -> is_finite (x / y)%fl = false.
Proof.
  intros Hy. apply feqb_zero_inv in Hy as (b & -> & Hb).
  apply Qeq_bool_iff in Hb as Hb'.
  destruct x as [a| | |]; simpl.
  - rewrite Hb'. apply scale_inf_not_finite.
  - destruct (Qle_bool 0 b); reflexivity.
  - destruct (Qle_bool 0 b); reflexivity.
  - reflexivity.
Qed.

Lemma fdiv_nan_r (x : fl) : (x / NaN)%fl = NaN.
Proof. destruct x; reflexivity. Qed.

Lemma fmul_nan_l (x : fl) : (NaN * x)%fl = NaN.
Proof. reflexivity. Qed.

Lemma fle_Fin (a b : Q) : fle (Fin a) (Fin b) <-> a <= b.
Proof. unfold fle. simpl. apply Qle_bool_iff. Qed.

Lemma fle_refl (x : fl) : is_nan x = false -> fle x x.
Proof.
  destruct x; unfold fle; simpl; try easy.
  intros _. apply Qle_bool_iff. lra.
Qed.

Lemma fle_trans (x y z : fl) : fle x y -> fle y z -> fle x z.
Proof.
  unfold fle.
  destruct x, y, z; simpl; try easy.
  rewrite !Qle_bool_iff. lra.
Qed.

Lemma fle_total (x y : fl) :
  is_nan x = false -> is_nan y = false -> fle x y \/ fle y x.
Proof.
  unfold fle.
  destruct x as [a| | |], y as [b| | |]; simpl; try easy; auto.
  intros _ _. rewrite !Qle_bool_iff.
  destruct (Qlt_le_dec a b); [left|right]; lra.
Qed.

Lemma fle_not_nan_l (x y : fl) : fle x y -> is_nan x = false.
Proof. unfold fle. destruct x; simpl; easy. Qed.

Lemma fle_not_nan_r (x y : fl) : fle x y -> is_nan y = false.
Proof. unfold fle. destruct x, y; simpl; easy. Qed.

Lemma fle_feq_r (x y z : fl) : fle x y -> feq y z -> fle x z.
Proof.
  unfold fle.
  destruct x, y, z; simpl; try easy.
  rewrite !Qle_bool_iff. intros ? ?. lra.
Qed.

Lemma feq_refl (x : fl) : feq x x.
Proof. destruct x; simpl; auto. reflexivity. Qed.

Lemma feq_sym (x y : fl) : feq x y -> feq y x.
Proof. destruct x, y; simpl; auto. intros E. now symmetry. Qed.

Lemma feq_trans (x y z : fl) : feq x y -> feq y z -> feq x z.
Proof.
  destruct x, y, z; simpl; try easy. intros ? ?. lra.
Qed.

(** ** Finite lists and their sums *)

Lemma all_finite_map_Fin (l : list fl) :
  all_finite l <-> exists qs, l = map Fin qs.
Proof.
  split.
  - induction 1 as [|x l Hx _ (qs & ->)].
    + now exists [].
    + destruct x as [q| | |]; try discriminate. now exists (q :: qs).
  - intros (qs & ->). induction qs; constructor; auto.
Qed.


Lemma fold_fadd_Fin (l : list Q) (a : Q) :
  fold_left fadd (map Fin l) (Fin a) = Fin (fold_left Qplus l a).
Proof.
  revert a. induction l as [|x l IH]; intros a; simpl; [reflexivity|].
  apply IH.
Qed.

Lemma np_sum_Fin (l : list Q) : np_sum (map Fin l) = Fin (Qsum l).
Proof. apply fold_fadd_Fin. Qed.

Lemma fold_Qplus_acc (l : list Q) (a : Q) :
  fold_left Qplus l a == a + Qsum l.
Proof.
  unfold Qsum. revert a.
  induction l as [|x l IH]; intros a; simpl; [lra|].
  rewrite (IH (a + x)), (IH (0 + x)). ring.
Qed.

Lemma Qsum_cons (x : Q) (l : list Q) : Qsum (x :: l) == x + Qsum l.
Proof. unfold Qsum at 1. simpl. rewrite fold_Qplus_acc. lra. Qed.

Lemma dropna_Fin (l : list Q) : dropna (map Fin l) = map Fin l.
Proof.
  unfold dropna. induction l as [|x l IH]; simpl; [reflexivity|].
  now rewrite IH.
Qed.

Lemma Qsum_le_bound (l : list Q) (v : Q) :
  Forall (fun x => x <= v) l ->
  Qsum l <= inject_Z (Z.of_nat (length l)) * v.
Proof.
  induction 1 as [|x l Hx _ IH].
  - unfold Qsum. cbn [length fold_left].
    change (inject_Z (Z.of_nat 0)) with 0. lra.
  - rewrite Qsum_cons. cbn [length].
    rewrite Nat2Z.inj_succ, <- Z.add_1_r, inject_Z_plus.
    change (inject_Z 1) with 1. lra.
Qed.

Lemma inject_nat_pos (n : nat) : (0 < n)%nat -> 0 < inject_Z (Z.of_nat n).
Proof.
  intros Hn. change 0 with (inject_Z 0). rewrite <- Zlt_Qlt. lia.
Qed.

(** The mean of a non-empty list of values that are all at most [v] is at
    most [v]. *)
Lemma Qmean_le_bound (l : list Q) (v : Q) :
  l <> [] -> Forall (fun x => x <= v) l ->
  Qsum l / inject_Z (Z.of_nat (length l)) <= v.
Proof.
  intros Hne Hall.
  assert (Hn : 0 < inject_Z (Z.of_nat (length l))).
  { apply inject_nat_pos. destruct l; [congruence|simpl; lia]. }
  apply Qle_shift_div_r; [exact Hn|].
  pose proof (Qsum_le_bound l v Hall). lra.
Qed.

(** ** Indexing *)

Lemma iloc_first (x : fl) (l : list fl) : iloc (x :: l) 0 = Ok x.
Proof.
  unfold iloc. cbn [length].
  replace ((0 <? 0)%Z) with false by reflexivity.
  replace ((Z.of_nat (S (length l)) <=? 0)%Z) with false
    by (symmetry; apply Z.leb_gt; lia).
  reflexivity.
Qed.

Lemma last_cons_default {A} (y x : A) (l : list A) :
  List.last (y :: l) x = List.last l y.
Proof.
  revert y x. induction l as [|z l IH]; intros y x; [reflexivity|].
  change (List.last (y :: z :: l) x) with (List.last (z :: l) x).
  now rewrite !IH.
Qed.

Lemma iloc_last (x : fl) (l : list fl) :
  iloc (x :: l) (-1) = Ok (List.last l x).
Proof.
  unfold iloc.
  replace ((-1 <? 0)%Z) with true by reflexivity.
  set (n := Z.of_nat (length (x :: l))).
  assert (Hn : (n = Z.of_nat (S (length l)))%Z) by reflexivity.
  replace (((n + -1 <? 0) || (n <=? n + -1))%Z) with false.
  2:{ symmetry. apply orb_false_iff. split;
      [apply Z.ltb_ge | apply Z.leb_gt]; lia. }
  replace (Z.to_nat (n + -1)) with (length l) by lia.
  clear n Hn. revert x.
  induction l as [|y l IH]; intros x; [reflexivity|].
  cbn [length nth_error]. rewrite IH.
  now rewrite last_cons_default.
Qed.

Lemma iloc_empty (i : Z) : iloc [] i = Raise IndexError.
Proof.
  unfold iloc. cbn [length].
  destruct (i <? 0)%Z eqn:Hi;
    match goal with
    | |- (if ?c then _ else _) = _ => destruct c eqn:Hc; [reflexivity|]
    end;
    apply orb_false_iff in Hc as [H1 H2];
    apply Z.ltb_ge in H1; apply Z.leb_gt in H2;
    try apply Z.ltb_lt in Hi; try apply Z.ltb_ge in Hi; lia.
Qed.

Lemma py_div_Fin (a b : Q) :
  ~ b == 0 -> py_div (Fin a) (Fin b) = Ok (Fin (a / b)).
Proof.
  intros Hb. unfold py_div. simpl.
  destruct (Qeq_bool b 0) eqn:E; [|reflexivity].
  apply Qeq_bool_iff in E. contradiction.
Qed.

Lemma inject_nat_nonzero (n : nat) :
  (0 < n)%nat -> ~ inject_Z (Z.of_nat n) == 0.
Proof. intros Hn E. pose proof (inject_nat_pos n Hn). lra. Qed.

(** ** Annualized return *)

Section AnnualizedReturn.
Context `{L : Libm}.

(** The value the code computes on a non-empty series. *)
Lemma calculate_annualized_return_nonempty
    (p : fl) (ps : list fl) (rf : fl) (rets : list fl) :
  let self := {| FinancialModel.prices := p :: ps;
                 FinancialModel.risk_free_rate := rf;
                 FinancialModel.returns := rets |} in
  let n := inject_Z (Z.of_nat (S (length ps))) in
  FinancialModel.calculate_annualized_return self =
  Ok (powf (one + (List.last ps p / p - one)) (Fin (1 / (n / 252))) - one)%fl.
Proof.
  intros self n. unfold FinancialModel.calculate_annualized_return.
  cbn [FinancialModel.prices self].
  rewrite iloc_last, iloc_first. cbn [rbind].
  unfold of_nat, of_Z. rewrite py_div_Fin by (intros E; discriminate E).
  cbn [rbind]. fold n.
  assert (Hn : 0 < n) by (apply inject_nat_pos; lia).
  assert (Hy : ~ n / 252 == 0).
  { intros E. assert (Hd : n == n / 252 * 252) by field.
    rewrite E in Hd. lra. }
  replace ((Fin (n / 252) =? zero)%fl) with false.
  2:{ symmetry. simpl. destruct (Qeq_bool (n / 252) 0) eqn:E; [|reflexivity].
      apply Qeq_bool_iff in E. contradiction. }
  unfold one at 1. rewrite py_div_Fin by exact Hy. reflexivity.
Qed.

End AnnualizedReturn.

(** ** The sample numeric library satisfies the laws *)

Lemma Qeq_bool_proper (a a' b b' : Q) :
  a == a' -> b == b' -> Qeq_bool a b = Qeq_bool a' b'.
Proof.
  intros Ha Hb.
  destruct (Qeq_bool a b) eqn:E1, (Qeq_bool a' b') eqn:E2; try reflexivity.
  - apply Qeq_bool_iff in E1. apply Qeq_bool_neq in E2.
    exfalso. apply E2. rewrite <- Ha, <- Hb. exact E1.
  - apply Qeq_bool_iff in E2. apply Qeq_bool_neq in E1.
    exfalso. apply E1. rewrite Ha, Hb. exact E2.
Qed.

Lemma sample_libm_laws : LibmLaws sample_libm.
Proof.
  constructor.
  - intros [n d] Hq. cbn [sqrtQ sample_libm]. unfold sqrtQ_sample.
    assert (Hn : n = 0%Z).
    { unfold Qeq in Hq. simpl in Hq. lia. }
    subst n. reflexivity.
  - intros x x' y y' Hx Hy. cbn [powf sample_libm].
    destruct x as [a| | |], x' as [a'| | |]; simpl in Hx; try easy;
      destruct y as [b| | |], y' as [b'| | |]; simpl in Hy; try easy.
    unfold powf_sample.
    rewrite (Qeq_bool_proper a a' 1 1 Hx (Qeq_refl 1)).
    destruct (Qeq_bool a' 1); [reflexivity|].
    assert (Hf : Qfloor b = Qfloor b') by now rewrite Hy.
    rewrite <- Hf.
    rewrite (Qeq_bool_proper b b' (inject_Z (Qfloor b)) (inject_Z (Qfloor b))
               Hy (Qeq_refl _)).
    destruct (Qeq_bool b' (inject_Z (Qfloor b))); [|exact I].
    rewrite (Qeq_bool_proper a a' 0 0 Hx (Qeq_refl 0)).
    destruct (Qeq_bool a' 0 && (Qfloor b <? 0)%Z); [exact I|].
    simpl. now rewrite Hx.
  - intros b. reflexivity.
Qed.

(** ** Arithmetic respects [feq] *)

Lemma fsub_feq (x x' y y' : fl) :
  feq x x' -> feq y y' -> feq (x - y)%fl (x' - y')%fl.
Proof.
  destruct x, x', y, y'; simpl; try easy. intros ? ?. lra.
Qed.

Lemma one_plus_minus_one (x : fl) : feq (one + (x - one))%fl x.
Proof. destruct x; simpl; auto. lra. Qed.

(** ** Sharpe ratio at zero volatility *)

Lemma result_of_fields `{L : Libm} (self : PortfolioOptimizer.t)
    (w : list fl) :
  PortfolioOptimizer.result_of self w =
  {| PortfolioOptimizer.weights := w;
     PortfolioOptimizer.expected_return :=
       np_sum (map2 fmul self.(PortfolioOptimizer.expected_returns) w);
     PortfolioOptimizer.volatility :=
       np_sqrt (np_dot w (np_matvec self.(PortfolioOptimizer.cov_matrix) w));
     PortfolioOptimizer.sharpe_ratio :=
       ((np_sum (map2 fmul self.(PortfolioOptimizer.expected_returns) w)
         - self.(PortfolioOptimizer.risk_free_rate))
        / np_sqrt (np_dot w (np_matvec self.(PortfolioOptimizer.cov_matrix) w))
       )%fl |}.
Proof. reflexivity. Qed.

(** C1.  [FinancialModel.calculate_sharpe_ratio] and
    [PortfolioModel.calculate_portfolio_sharpe] return exactly 0 when the
    volatility they divide by is 0.  [PortfolioOptimizer.
    _calculate_portfolio_metrics] has no such guard: whenever its computed
    volatility is 0, the Sharpe ratio it returns is an infinity or nan, never
    a finite number. *)
Theorem sharpe_ratio_at_zero_volatility `{L : Libm} :
  (forall (self : FinancialModel.t) (ar vol : option fl),
      self.(FinancialModel.prices) <> [] ->
      feqb (match vol with
            | Some v => v
            | None => FinancialModel.calculate_annualized_volatility self
            end) zero = true ->
      FinancialModel.calculate_sharpe_ratio self ar vol = Ok zero)
  /\ (forall self : PortfolioModel.t,
         feqb (PortfolioModel.calculate_portfolio_volatility self) zero = true ->
         PortfolioModel.calculate_portfolio_sharpe self = zero)
  /\ (forall (self : PortfolioOptimizer.t) (w : list fl),
         feqb (PortfolioOptimizer.volatility
                 (PortfolioOptimizer.result_of self w)) zero = true ->
         is_finite (PortfolioOptimizer.sharpe_ratio
                      (PortfolioOptimizer.result_of self w)) = false).
Proof.
  split; [|split].
  - intros [prices rf rets] ar vol Hne Hvol.
    destruct prices as [|p ps]; [contradiction|].
    unfold FinancialModel.calculate_sharpe_ratio.
    assert (Har : exists r,
               match ar with
               | Some r => Ok r
               | None => FinancialModel.calculate_annualized_return
                           {| FinancialModel.prices := p :: ps;
                              FinancialModel.risk_free_rate := rf;
                              FinancialModel.returns := rets |}
               end = Ok r).
    { destruct ar as [r|]; [now exists r|].
      rewrite calculate_annualized_return_nonempty. eauto. }
    destruct Har as (r & ->). cbn [rbind].
    now rewrite Hvol.
  - intros self Hvol. unfold PortfolioModel.calculate_portfolio_sharpe.
    now rewrite Hvol.
  - intros self w. rewrite result_of_fields.
    cbn [PortfolioOptimizer.volatility PortfolioOptimizer.sharpe_ratio].
    apply fdiv_zero_not_finite.
Qed.

Lemma sharpe_ratio_at_zero_volatility_witness :
  FinancialModel.calculate_sharpe_ratio (L := sample_libm)
    (FinancialModel.init [Fin 100; Fin 100; Fin 100] (Fin (4 # 100)))
    None None = Ok zero
  /\ is_finite (PortfolioOptimizer.sharpe_ratio
                  (PortfolioOptimizer.result_of (L := sample_libm)
                     flat_optimizer [one])) = false.
Proof.
  split.
  - apply (proj1 (sharpe_ratio_at_zero_volatility (L := sample_libm)));
      [discriminate | vm_compute; reflexivity].
  - apply (proj2 (proj2 (sharpe_ratio_at_zero_volatility (L := sample_libm)))).
    vm_compute. reflexivity.
Defined.

(** On the flat asset the equal-weight portfolio of the optimizer has
    volatility 0 and an infinite Sharpe ratio. *)
Example flat_optimizer_equal_weight :
  exists r,
    PortfolioOptimizer.equal_weight (L := sample_libm) flat_optimizer = Ok r
    /\ feqb (PortfolioOptimizer.volatility r) zero = true
    /\ PortfolioOptimizer.sharpe_ratio r = PInf.
Proof. eexists. split; [reflexivity|]. split; vm_compute; reflexivity. Qed.

(** ** Annualized return on short series *)

(** C7.  On an empty price series [calculate_annualized_return] raises
    [IndexError]: the series is indexed before the [years == 0] guard is
    reached.  On a non-empty series of [n] prices it returns
    [(P_last / P_first) ** (252 / n) - 1], which is 0 for a single finite
    non-zero price. *)
Theorem annualized_return_short_series `{L : Libm} (Laws : LibmLaws L) :
  (forall rf : fl,
      FinancialModel.calculate_annualized_return
        (FinancialModel.init [] rf) = Raise IndexError)
  /\ (forall (p : fl) (ps : list fl) (rf : fl),
         let n := inject_Z (Z.of_nat (length (p :: ps))) in
         exists v,
           FinancialModel.calculate_annualized_return
             (FinancialModel.init (p :: ps) rf) = Ok v
           /\ feq v (powf (List.last ps p / p) (Fin (252 / n)) - one)%fl)
  /\ (forall (p : Q) (rf : fl),
         ~ p == 0 ->
         exists v,
           FinancialModel.calculate_annualized_return
             (FinancialModel.init [Fin p] rf) = Ok v
           /\ feq v zero).
Proof.
  split; [|split].
  - intros rf. reflexivity.
  - intros p ps rf n. unfold FinancialModel.init.
    rewrite calculate_annualized_return_nonempty.
    eexists. split; [reflexivity|].
    apply fsub_feq; [|apply feq_refl].
    apply powf_proper; [apply one_plus_minus_one|].
    cbn [feq]. change (inject_Z (Z.of_nat (S (length ps)))) with n.
    assert (Hn : 0 < n) by (apply inject_nat_pos; simpl; lia).
    clearbody n. field. lra.
  - intros p rf Hp. unfold FinancialModel.init.
    rewrite calculate_annualized_return_nonempty.
    eexists. split; [reflexivity|].
    cbn [List.last length].
    eapply feq_trans.
    + apply fsub_feq; [|apply feq_refl].
      eapply feq_trans; [|apply (powf_base_one (1 / (inject_Z 1 / 252)))].
      apply powf_proper; [|apply feq_refl].
      cbn [fdiv fsub fadd fneg one feq].
      destruct (Qeq_bool p 0) eqn:E;
        [apply Qeq_bool_iff in E; contradiction|].
      unfold fsub, one. cbn [fadd fneg feq]. field. exact Hp.
    + unfold fsub, one, zero. cbn [fadd fneg feq]. lra.
Qed.

Lemma annualized_return_short_series_witness :
  FinancialModel.calculate_annualized_return (L := sample_libm)
    (FinancialModel.init [] (Fin (4 # 100))) = Raise IndexError
  /\ exists v,
      FinancialModel.calculate_annualized_return (L := sample_libm)
        (FinancialModel.init [Fin 100] (Fin (4 # 100))) = Ok v
      /\ feq v zero.
Proof.
  split.
  - apply (proj1 (annualized_return_short_series sample_libm_laws)).
  - apply (proj2 (proj2 (annualized_return_short_series sample_libm_laws))).
    intros E. discriminate E.
Defined.

(** ** Sortino ratio *)

Lemma length_dropna_le (l : list fl) : (length (dropna l) <= length l)%nat.
Proof. unfold dropna. apply List.filter_length_le. Qed.

Lemma pd_std_short `{L : Libm} (l : list fl) :
  (length l < 2)%nat -> pd_std l = NaN.
Proof.
  intros Hl. unfold pd_std, pd_var.
  pose proof (length_dropna_le l) as Hd.
  replace (length (dropna l) <=? 1)%nat with true; [reflexivity|].
  symmetry. apply Nat.leb_le. lia.
Qed.

(** C8.  The Sortino ratio is 0 when the annualized volatility of the
    sub-target returns is 0, but when fewer than two returns lie below the
    target (in particular when none does) their standard deviation is nan
    and the ratio returned is nan, not 0. *)
Theorem sortino_ratio_degenerate_downside `{L : Libm}
    (self : FinancialModel.t) (ar target : fl) :
  let downside :=
    List.filter (fun r => (r <? target)%fl) self.(FinancialModel.returns) in
  (feqb (pd_std downside * np_sqrt (Fin 252))%fl zero = true ->
   FinancialModel.calculate_sortino_ratio self (Some ar) target = Ok zero)
  /\ ((length downside < 2)%nat ->
      FinancialModel.calculate_sortino_ratio self (Some ar) target = Ok NaN).
Proof.
  intros downside. unfold FinancialModel.calculate_sortino_ratio.
  cbn [rbind]. fold downside. split.
  - intros ->. reflexivity.
  - intros Hlen. rewrite (pd_std_short downside Hlen).
    cbn [fmul feqb]. now rewrite fdiv_nan_r.
Qed.

Lemma sortino_ratio_degenerate_downside_witness :
  FinancialModel.calculate_sortino_ratio (L := sample_libm)
    (FinancialModel.init [Fin 100; Fin 101; Fin 102] (Fin (4 # 100)))
    (Some (Fin (5 # 100))) zero = Ok NaN
  /\ FinancialModel.calculate_sortino_ratio (L := sample_libm)
       (FinancialModel.init [Fin 100; Fin 99; Fin 98.01] (Fin (4 # 100)))
       (Some (Fin (5 # 100))) zero = Ok zero.
Proof.
  split.
  - apply (proj2 (sortino_ratio_degenerate_downside (L := sample_libm)
                    _ _ _)).
    vm_compute. lia.
  - apply (proj1 (sortino_ratio_degenerate_downside (L := sample_libm)
                    _ _ _)).
    vm_compute. reflexivity.
Defined.

(** ** Sorting and percentiles *)

Lemma insert_sorted_perm (x : fl) (l : list fl) :
  Permutation (insert_sorted x l) (x :: l).
Proof.
  induction l as [|y l IH]; simpl; [reflexivity|].
  destruct (fleb x y); [reflexivity|].
  rewrite IH. apply perm_swap.
Qed.

Lemma np_sort_perm (l : list fl) : Permutation (np_sort l) l.
Proof.
  unfold np_sort. induction l as [|x l IH]; simpl; [reflexivity|].
  rewrite insert_sorted_perm. now rewrite IH.
Qed.

Lemma np_sort_length (l : list fl) : length (np_sort l) = length l.
Proof. apply Permutation_length, np_sort_perm. Qed.

Lemma insert_sorted_sorted (x : fl) (l : list fl) :
  is_nan x = false -> Forall (fun y => is_nan y = false) l ->
  StronglySorted fle l -> StronglySorted fle (insert_sorted x l).
Proof.
  intros Hx Hl Hs. induction Hs as [|y l Hs IH Hy]; simpl.
  - repeat constructor.
  - inversion Hl as [|? ? Hny Hl']; subst.
    destruct (fleb x y) eqn:E.
    + constructor; [now constructor|].
      constructor; [exact E|].
      eapply List.Forall_impl; [|exact Hy].
      intros z Hz. eapply fle_trans; [exact E|exact Hz].
    + constructor; [now apply IH|].
      assert (Hyx : fle y x).
      { destruct (fle_total x y Hx Hny) as [H1|H1]; [|exact H1].
        unfold fle in H1. congruence. }
      eapply Permutation_Forall;
        [symmetry; apply insert_sorted_perm|].
      now constructor.
Qed.

Lemma np_sort_sorted (l : list fl) :
  Forall (fun y => is_nan y = false) l -> StronglySorted fle (np_sort l).
Proof.
  unfold np_sort. induction 1 as [|x l Hx Hl IH]; simpl; [constructor|].
  apply insert_sorted_sorted; [exact Hx| |exact IH].
  eapply Permutation_Forall; [symmetry; apply np_sort_perm|exact Hl].
Qed.

Lemma all_finite_not_nan (l : list fl) :
  all_finite l -> Forall (fun y => is_nan y = false) l.
Proof.
  apply List.Forall_impl. intros [ | | | ]; simpl; congruence.
Qed.

Lemma all_finite_perm (l l' : list fl) :
  Permutation l l' -> all_finite l -> all_finite l'.
Proof. intros Hp. unfold all_finite. now apply Permutation_Forall. Qed.

Lemma all_finite_existsb_nan (l : list fl) :
  all_finite l -> existsb is_nan l = false.
Proof.
  induction 1 as [|x l Hx _ IH]; [reflexivity|].
  simpl. rewrite IH. destruct x; simpl in *; congruence.
Qed.

Lemma sorted_nth_le (l : list fl) (i j : nat) :
  StronglySorted fle l -> Forall (fun y => is_nan y = false) l ->
  (i <= j)%nat -> (j < length l)%nat ->
  fle (nth i l NaN) (nth j l NaN).
Proof.
  intros Hs. revert i j.
  induction Hs as [|x l Hs IH Hx]; intros i j Hn Hij Hj; [simpl in Hj; lia|].
  inversion Hn as [|? ? Hnx Hn']; subst.
  destruct i as [|i], j as [|j]; simpl in *.
  - now apply fle_refl.
  - rewrite List.Forall_forall in Hx. apply Hx. apply nth_In. lia.
  - lia.
  - apply IH; [exact Hn'|lia|lia].
Qed.

(** Linear interpolation between two finite values stays between them. *)
Lemma lerp_between (a b t : Q) :
  a <= b -> 0 <= t -> t <= 1 ->
  exists r, lerp (Fin a) (Fin b) (Fin t) = Fin r /\ a <= r /\ r <= b.
Proof.
  intros Hab Ht0 Ht1. unfold lerp, fsub, one. cbn [fneg fadd fmul fleb].
  destruct (Qle_bool (1 # 2) t); cbn [fneg fadd];
    eexists; (split; [reflexivity|]); split; nra.
Qed.

Lemma Qfloor_nonneg (q : Q) : 0 <= q -> (0 <= Qfloor q)%Z.
Proof.
  intros Hq. change 0%Z with (Qfloor 0). now apply Qfloor_resp_le.
Qed.

Lemma Qfloor_le_nat (q : Q) (m : nat) :
  q <= inject_Z (Z.of_nat m) -> (Qfloor q <= Z.of_nat m)%Z.
Proof.
  intros Hq. rewrite <- (Qfloor_Z (Z.of_nat m)). now apply Qfloor_resp_le.
Qed.

(** On a non-empty array of finite values a percentile in range is a finite
    value, and some element of the array is at or below it. *)
Lemma np_percentile_finite (qs : list Q) (q : Q) :
  qs <> [] -> 0 <= q -> q <= 100 ->
  exists p, np_percentile (map Fin qs) (Fin q) = Ok (Fin p)
            /\ Exists (fun a => a <= p) qs.
Proof.
  intros Hne Hq0 Hq1. unfold np_percentile.
  cbn [fdiv]. replace (Qeq_bool 100 0) with false by reflexivity.
  assert (Hquant : 0 <= q / 100 <= 1).
  { split; [apply Qle_shift_div_l; lra | apply Qle_shift_div_r; lra]. }
  set (quant := q / 100) in *. clearbody quant.
  destruct Hquant as [Hl Hu].
  rewrite (proj2 (Qle_bool_iff 0 quant) Hl).
  rewrite (proj2 (Qle_bool_iff quant 1) Hu). cbn [andb].
  assert (Hfin : all_finite (map Fin qs))
    by (apply all_finite_map_Fin; eauto).
  rewrite (all_finite_existsb_nan _ Hfin).
  rewrite length_map.
  destruct (length qs) as [|m] eqn:Hlen;
    [destruct qs; [congruence|discriminate]|].
  cbv zeta.
  set (mq := inject_Z (Z.of_nat m)).
  assert (Hm : 0 <= mq).
  { unfold mq. change 0 with (inject_Z 0). rewrite <- Zle_Qle. lia. }
  set (virt := quant * mq).
  assert (Hv0 : 0 <= virt) by (unfold virt; nra).
  assert (Hv1 : virt <= mq) by (unfold virt; nra).
  pose proof (Qfloor_nonneg virt Hv0) as Hf0.
  pose proof (Qfloor_le_nat virt m Hv1) as Hf1.
  pose proof (Qfloor_le virt) as Hg0.
  pose proof (Qlt_floor virt) as Hg1.
  set (prev := Z.to_nat (Qfloor virt)).
  set (next := Nat.min (S prev) m).
  set (arr := np_sort (map Fin qs)).
  assert (Hparr : Permutation arr (map Fin qs)) by apply np_sort_perm.
  assert (Hlarr : length arr = S m).
  { unfold arr. rewrite np_sort_length, length_map. exact Hlen. }
  assert (Hfarr : all_finite arr).
  { eapply all_finite_perm; [symmetry; exact Hparr|exact Hfin]. }
  assert (Hsarr : StronglySorted fle arr).
  { apply np_sort_sorted, all_finite_not_nan, Hfin. }
  assert (Hprev : (prev <= m)%nat) by (unfold prev; lia).
  assert (Hnext : (prev <= next /\ next <= m)%nat) by (unfold next; lia).
  assert (Hin_prev : In (nth prev arr NaN) arr) by (apply nth_In; lia).
  assert (Hin_next : In (nth next arr NaN) arr) by (apply nth_In; lia).
  pose proof (sorted_nth_le arr prev next Hsarr
                (all_finite_not_nan _ Hfarr) (proj1 Hnext)
                ltac:(lia)) as Hle.
  unfold all_finite in Hfarr. rewrite List.Forall_forall in Hfarr.
  pose proof (Hfarr _ Hin_prev) as Hfp.
  pose proof (Hfarr _ Hin_next) as Hfn.
  destruct (nth prev arr NaN) as [a| | |] eqn:Ea; try discriminate.
  destruct (nth next arr NaN) as [b| | |] eqn:Eb; try discriminate.
  apply fle_Fin in Hle.
  assert (Hgam : 0 <= virt - inject_Z (Qfloor virt) <= 1).
  { rewrite inject_Z_plus in Hg1. change (inject_Z 1) with 1 in Hg1. lra. }
  destruct (lerp_between a b _ Hle (proj1 Hgam) (proj2 Hgam))
    as (r & Hr & Har & _).
  exists r. split.
  - now rewrite Hr.
  - apply List.Exists_exists. exists a. split; [|exact Har].
    assert (Hia : In (Fin a) (map Fin qs)).
    { eapply Permutation_in; [exact Hparr|]. exact Hin_prev. }
    apply in_map_iff in Hia as (a' & Ha' & Hin). now inversion Ha'; subst.
Qed.

(** ** Means of tails *)

Lemma filter_map_Fin (f : fl -> bool) (l : list Q) :
  List.filter f (map Fin l) = map Fin (List.filter (fun a => f (Fin a)) l).
Proof.
  induction l as [|a l IH]; simpl; [reflexivity|].
  destruct (f (Fin a)); simpl; now rewrite IH.
Qed.

Lemma fdiv_Fin_nat (s : Q) (n : nat) :
  (0 < n)%nat ->
  (Fin s / of_nat n)%fl = Fin (s / inject_Z (Z.of_nat n)).
Proof.
  intros Hn. unfold of_nat, of_Z. cbn [fdiv].
  destruct (Qeq_bool (inject_Z (Z.of_nat n)) 0) eqn:E; [|reflexivity].
  apply Qeq_bool_iff in E. now apply inject_nat_nonzero in E.
Qed.

Lemma pd_mean_Fin (l : list Q) :
  l <> [] ->
  pd_mean (map Fin l) = Fin (Qsum l / inject_Z (Z.of_nat (length l))).
Proof.
  intros Hne. unfold pd_mean, pd_count, pd_sum.
  rewrite dropna_Fin, length_map, np_sum_Fin.
  destruct l as [|a l]; [congruence|].
  cbn [length]. apply fdiv_Fin_nat. lia.
Qed.

Lemma np_mean_Fin (l : list Q) :
  l <> [] ->
  np_mean (map Fin l) = Fin (Qsum l / inject_Z (Z.of_nat (length l))).
Proof.
  intros Hne. unfold np_mean. rewrite length_map, np_sum_Fin.
  apply fdiv_Fin_nat. destruct l; [congruence|simpl; lia].
Qed.

(** ** Portfolio return series *)

Lemma map2_fmul_Fin (a b : list Q) :
  map2 fmul (map Fin a) (map Fin b) = map Fin (map2 Qmult a b).
Proof.
  revert b. induction a as [|x a IH]; intros [|y b]; simpl;
    try reflexivity.
  now rewrite IH.
Qed.

Lemma pd_sum_Fin (l : list Q) : pd_sum (map Fin l) = Fin (Qsum l).
Proof. unfold pd_sum. now rewrite dropna_Fin, np_sum_Fin. Qed.

Lemma weighted_row_sums_finite (df : DataFrame) (w prs : list fl) :
  Forall all_finite df.(rows) -> all_finite w ->
  weighted_row_sums df w = Ok prs ->
  all_finite prs /\ length prs = length df.(rows).
Proof.
  intros Hrows Hw. unfold weighted_row_sums.
  destruct (length w =? length (columns df))%nat; [|discriminate].
  intros [= <-]. split; [|apply length_map].
  apply all_finite_map_Fin in Hw as (ws & ->).
  induction Hrows as [|row rows Hrow _ IH]; [constructor|].
  simpl. constructor; [|exact IH].
  apply all_finite_map_Fin in Hrow as (rs & ->).
  now rewrite map2_fmul_Fin, pd_sum_Fin.
Qed.

(** ** CVaR against VaR *)

Lemma Qsum_repeat (q : Q) (n : nat) :
  Qsum (repeat q n) == inject_Z (Z.of_nat n) * q.
Proof.
  induction n as [|n IH].
  - unfold Qsum. cbn [repeat fold_left].
    change (inject_Z (Z.of_nat 0)) with 0. lra.
  - cbn [repeat]. rewrite Qsum_cons, IH.
    rewrite Nat2Z.inj_succ, <- Z.add_1_r, inject_Z_plus.
    change (inject_Z 1) with 1. lra.
Qed.

Lemma map_Fin_repeat (q : Q) (n : nat) :
  repeat (Fin q) n = map Fin (repeat q n).
Proof. induction n; simpl; congruence. Qed.

(** The mean of [n >= 1] copies of a finite value, in either library. *)
Lemma mean_of_copies (v : Q) (n : nat) :
  (0 < n)%nat ->
  exists m : Q,
    pd_mean (repeat (Fin v) n) = Fin m
    /\ np_mean (repeat (Fin v) n) = Fin m
    /\ m == v.
Proof.
  intros Hn.
  assert (Hne : repeat v n <> []) by (destruct n; [lia|discriminate]).
  exists (Qsum (repeat v n) / inject_Z (Z.of_nat (length (repeat v n)))).
  rewrite map_Fin_repeat.
  split; [now apply pd_mean_Fin|]. split; [now apply np_mean_Fin|].
  rewrite repeat_length, Qsum_repeat. field.
  now apply inject_nat_nonzero.
Qed.

(** The values at or below a percentile of a finite, non-empty array: there
    is at least one, and their mean is at most the mean of as many copies of
    the percentile. *)
Lemma tail_below_percentile (l : list fl) (q : Q) :
  all_finite l -> l <> [] -> 0 <= q -> q <= 100 ->
  exists var cvar : Q,
    np_percentile l (Fin q) = Ok (Fin var)
    /\ let tail := List.filter (fun r => (r <=? Fin var)%fl) l in
       tail <> []
       /\ Forall (fun r => fle r (Fin var)) tail
       /\ pd_mean tail = Fin cvar
       /\ np_mean tail = Fin cvar
       /\ fle (Fin cvar) (pd_mean (repeat (Fin var) (length tail)))
       /\ fle (Fin cvar) (np_mean (repeat (Fin var) (length tail))).
Proof.
  intros Hfin Hne Hq0 Hq1.
  apply all_finite_map_Fin in Hfin as (qs & ->).
  assert (Hqs : qs <> []) by (intros ->; now apply Hne).
  destruct (np_percentile_finite qs q Hqs Hq0 Hq1) as (var & Hvar & Hex).
  set (tail := List.filter (fun a => (Fin a <=? Fin var)%fl) qs).
  assert (Htail : tail <> []).
  { apply List.Exists_exists in Hex as (a & Hin & Ha).
    assert (Hf : In a tail).
    { apply filter_In. split; [exact Hin|]. now apply fle_Fin. }
    intros E. now rewrite E in Hf. }
  assert (Hall : Forall (fun a => a <= var) tail).
  { apply List.Forall_forall. intros a Ha.
    apply filter_In in Ha as [_ Ha]. now apply fle_Fin in Ha. }
  assert (Hn : (0 < length tail)%nat)
    by (destruct tail; [congruence|simpl; lia]).
  destruct (mean_of_copies var (length tail) Hn) as (m & Hpm & Hnm & Hm).
  exists var, (Qsum tail / inject_Z (Z.of_nat (length tail))).
  split; [exact Hvar|]. cbv zeta.
  rewrite filter_map_Fin. fold tail.
  rewrite length_map, Hpm, Hnm.
  split; [destruct tail; [congruence|discriminate]|].
  split.
  { apply List.Forall_forall. intros r Hr.
    apply in_map_iff in Hr as (a & <- & Ha). apply fle_Fin.
    rewrite List.Forall_forall in Hall. now apply Hall. }
  split; [now apply pd_mean_Fin|]. split; [now apply np_mean_Fin|].
  assert (Hle : Qsum tail / inject_Z (Z.of_nat (length tail)) <= m).
  { rewrite Hm. now apply Qmean_le_bound. }
  split; apply fle_Fin; exact Hle.
Qed.




(** ** The order of VaR and CVaR *)

(** C6.  The code has the order the other way round.  On [tail_frame]
    (returns of -5%, -2%, 1%, 2% and 3%, one asset at weight 1) and the
    default confidence of 0.95 the VaR is about -0.044 and the CVaR is the
    single return below it, -0.05: the CVaR lies strictly below the VaR, in
    exact arithmetic and in binary64, so that [VaR <= CVaR <= 0] fails. *)
Theorem cvar_strictly_below_var_on_left_tail :
  (exists var cvar : Q,
      PortfolioModel.calculate_var tail_portfolio (Fin (95 # 100))
      = Ok (Fin var)
      /\ PortfolioModel.calculate_cvar tail_portfolio (Fin (95 # 100))
         = Ok (Fin cvar)
      /\ cvar < var /\ var < 0
      /\ ~ (var <= cvar /\ cvar <= 0))
  /\ exists var cvar : float,
      Binary64.calculate_var tail_portfolio64 (Binary64.decimal 95 100)
      = Ok var
      /\ Binary64.calculate_cvar tail_portfolio64 (Binary64.decimal 95 100)
         = Ok cvar
      /\ PrimFloat.ltb cvar var = true
      /\ PrimFloat.ltb var (Binary64.of_Z 0) = true
      /\ PrimFloat.leb var cvar = false.
Proof.
  split.
  - eexists. eexists.
    split; [vm_compute; reflexivity|].
    split; [vm_compute; reflexivity|].
    split; [vm_compute; reflexivity|].
    split; [vm_compute; reflexivity|].
    intros [Hle _]. vm_compute in Hle. apply Hle. reflexivity.
  - eexists. eexists.
    split; [vm_compute; reflexivity|].
    split; [vm_compute; reflexivity|].
    repeat split; vm_compute; reflexivity.
Qed.

(** ** Drawdown *)

Lemma fmin_cases (x y : fl) :
  is_nan x = false -> is_nan y = false ->
  (fmin x y = x \/ fmin x y = y) /\ fle (fmin x y) x.
Proof.
  intros Hx Hy. unfold fmin. destruct (fleb x y) eqn:E.
  - split; [now left|now apply fle_refl].
  - split; [now right|].
    destruct (fle_total x y Hx Hy) as [H|H]; [|exact H].
    unfold fle in H. congruence.
Qed.

(** The running minimum of valid values is one of them and is at most the
    first. *)
Lemma fold_fmin_spec (l : list fl) (x : fl) :
  is_nan x = false -> Forall (fun y => is_nan y = false) l ->
  In (fold_left fmin l x) (x :: l) /\ fle (fold_left fmin l x) x.
Proof.
  intros Hx Hl. revert x Hx.
  induction Hl as [|y l Hy _ IH]; intros x Hx.
  - simpl. split; [now left|now apply fle_refl].
  - cbn [fold_left].
    destruct (fmin_cases x y Hx Hy) as [Hc Hle].
    assert (Hm : is_nan (fmin x y) = false) by (destruct Hc as [-> | ->]; assumption).
    destruct (IH _ Hm) as [Hin Hle'].
    split.
    + destruct Hin as [<-|Hin].
      * destruct Hc as [-> | ->]; [now left|right; now left].
      * right. now right.
    + eapply fle_trans; [exact Hle'|exact Hle].
Qed.

Lemma dropna_not_nan (l : list fl) :
  Forall (fun y => is_nan y = false) (dropna l).
Proof.
  unfold dropna. apply List.Forall_forall. intros y Hy.
  apply filter_In in Hy as [_ Hy]. now apply negb_true_iff in Hy.
Qed.

Lemma pd_min_head (x : fl) (l : list fl) :
  is_nan x = false ->
  In (pd_min (x :: l)) (x :: dropna l) /\ fle (pd_min (x :: l)) x.
Proof.
  intros Hx. unfold pd_min, dropna. cbn [List.filter]. rewrite Hx.
  cbn [negb]. apply fold_fmin_spec; [exact Hx|apply dropna_not_nan].
Qed.

Lemma cumprod_from_Fin (a : Q) (l : list Q) :
  exists cs, cumprod_from (Fin a) (map Fin l) = map Fin cs
             /\ length cs = length l
             /\ (forall x l', l = x :: l' -> exists cs', cs = a * x :: cs').
Proof.
  revert a. induction l as [|x l IH]; intros a.
  - exists []. repeat split. intros ? ? [=].
  - destruct (IH (a * x)) as (cs & Hcs & Hlen & _).
    exists (a * x :: cs). cbn [map cumprod_from is_nan fmul].
    rewrite Hcs. repeat split; [simpl; now rewrite Hlen|].
    intros ? ? [= <- <-]. eauto.
Qed.

(** On a path that never falls the running maximum is the path itself. *)
Lemma expanding_max_nondecreasing (m : fl) (l : list fl) :
  nondecreasing (m :: l) ->
  expanding_max_from (Some m) l = l.
Proof.
  revert m. induction l as [|x l IH]; intros m Hnd; [reflexivity|].
  destruct Hnd as [Hmx Hnd].
  cbn [expanding_max_from].
  rewrite (fle_not_nan_r _ _ Hmx).
  unfold fmax. rewrite Hmx. now rewrite IH.
Qed.

Lemma self_drawdown (c : Q) :
  ((Fin c - Fin c) / Fin c)%fl = NaN
  \/ exists z, ((Fin c - Fin c) / Fin c)%fl = Fin z /\ z == 0.
Proof.
  unfold fsub. cbn [fneg fadd fdiv].
  destruct (Qeq_bool c 0) eqn:E.
  - left. unfold scale_inf.
    replace (Qeq_bool (c + - c) 0) with true; [reflexivity|].
    symmetry. apply Qeq_bool_iff. lra.
  - right. eexists. split; [reflexivity|].
    apply Qeq_bool_neq in E. field. exact E.
Qed.

Lemma self_drawdown_nonzero (c : Q) :
  ~ c == 0 -> exists z, ((Fin c - Fin c) / Fin c)%fl = Fin z /\ z == 0.
Proof.
  intros Hc. unfold fsub. cbn [fneg fadd fdiv].
  destruct (Qeq_bool c 0) eqn:E; [apply Qeq_bool_iff in E; contradiction|].
  eexists. split; [reflexivity|]. field. exact Hc.
Qed.

Lemma self_drawdowns_zero (cs : list Q) :
  Forall (fun d => feq d zero)
    (dropna (map2 (fun c m => ((c - m) / m)%fl) (map Fin cs) (map Fin cs))).
Proof.
  induction cs as [|c cs IH]; [constructor|].
  cbn [map map2]. unfold dropna. cbn [List.filter].
  destruct (self_drawdown c) as [-> | (z & -> & Hz)]; cbn [is_nan negb].
  - exact IH.
  - constructor; [exact Hz|exact IH].
Qed.

(** With no negative return the cumulative path never falls. *)
Lemma cumprod_nonneg_returns (a : Q) (l : list Q) :
  0 <= a -> Forall (fun x => 0 <= x) l ->
  nondecreasing (Fin a :: cumprod_from (Fin a) (map Fin (map (Qplus 1) l))).
Proof.
  intros Ha Hl. revert a Ha.
  induction Hl as [|x l Hx _ IH]; intros a Ha; [simpl; auto|].
  cbn [map cumprod_from is_nan fmul].
  assert (Hax : a <= a * (1 + x)) by nra.
  split; [now apply fle_Fin|].
  apply IH. lra.
Qed.

Lemma map_fadd_one_Fin (l : list Q) :
  map (fadd one) (map Fin l) = map Fin (map (Qplus 1) l).
Proof. rewrite !map_map. reflexivity. Qed.

(** Away from a total loss the drawdown is as C9 says.  For a finite return
    series whose first return is not -100%, [calculate_max_drawdown] is at
    most 0; it is exactly 0 when the cumulative-return path never falls, in
    particular when no return is negative. *)
Lemma max_drawdown_nonpositive (self : FinancialModel.t) (r : Q)
    (rs : list Q) :
  self.(FinancialModel.returns) = map Fin (r :: rs) ->
  ~ 1 + r == 0 ->
  fle (FinancialModel.calculate_max_drawdown self) zero
  /\ (nondecreasing (cumprod (map (fadd one) self.(FinancialModel.returns))) ->
      feq (FinancialModel.calculate_max_drawdown self) zero)
  /\ (Forall (fun x => 0 <= x) (r :: rs) ->
      feq (FinancialModel.calculate_max_drawdown self) zero).
Proof.
  intros Hret Hr1. unfold FinancialModel.calculate_max_drawdown.
  rewrite Hret, map_fadd_one_Fin. unfold cumprod, one.
  destruct (cumprod_from_Fin 1 (map (Qplus 1) (r :: rs)))
    as (cs & Hcs & _ & Hhd).
  destruct (Hhd _ _ eq_refl) as (cs' & ->).
  rewrite Hcs. clear Hhd.
  set (c := 1 * (1 + r)) in *.
  assert (Hc : ~ c == 0) by (unfold c; intros E; apply Hr1; lra).
  destruct (self_drawdown_nonzero c Hc) as (z & Hz & Hz0).
  assert (Hpart2 :
            nondecreasing (map Fin (c :: cs')) ->
            feq (pd_min (map2 (fun c m => ((c - m) / m)%fl)
                           (map Fin (c :: cs'))
                           (expanding_max (map Fin (c :: cs'))))) zero).
  { intros Hnd.
    assert (Hem : expanding_max (map Fin (c :: cs')) = map Fin (c :: cs')).
    { unfold expanding_max. cbn [map expanding_max_from is_nan].
      now rewrite expanding_max_nondecreasing. }
    rewrite Hem.
    pose proof (self_drawdowns_zero (c :: cs')) as Hall.
    cbn [map map2] in *. rewrite Hz in *.
    destruct (pd_min_head (Fin z)
                (map2 (fun c m => ((c - m) / m)%fl) (map Fin cs') (map Fin cs'))
                eq_refl) as [Hin _].
    unfold dropna in Hall. cbn [List.filter is_nan negb] in Hall.
    rewrite List.Forall_forall in Hall. now apply Hall. }
  split; [|split].
  - unfold expanding_max. cbn [map expanding_max_from is_nan map2].
    rewrite Hz.
    eapply fle_feq_r; [apply pd_min_head; reflexivity|exact Hz0].
  - exact Hpart2.
  - intros Hnn. apply Hpart2. rewrite <- Hcs.
    pose proof (cumprod_nonneg_returns 1 (r :: rs) ltac:(lra) Hnn) as Hnd.
    apply Hnd.
Qed.

Lemma max_drawdown_nonpositive_witness :
  fle (FinancialModel.calculate_max_drawdown
         (FinancialModel.init [Fin 100; Fin 90; Fin 95; Fin 80; Fin 120]
                              (Fin (4 # 100)))) zero
  /\ feq (FinancialModel.calculate_max_drawdown
            (FinancialModel.init [Fin 100; Fin 101; Fin 102]
                                 (Fin (4 # 100)))) zero.
Proof.
  split.
  - refine (proj1 (max_drawdown_nonpositive _ (-10 # 100)
                     [5 # 90; -15 # 95; 40 # 80] _ _)).
    + vm_compute. reflexivity.
    + vm_compute. discriminate.
  - refine (proj2 (proj2 (max_drawdown_nonpositive _ (1 # 100) [1 # 101]
                            _ _)) _).
    + vm_compute. reflexivity.
    + vm_compute. discriminate.
    + repeat constructor; vm_compute; discriminate.
Defined.

(** C9.  The code has no guard for a running maximum of 0.  After a total
    loss (prices 1 and 0: a first return of -100%) the cumulative path is 0,
    every drawdown is [0/0] and [calculate_max_drawdown] returns nan, which
    is not [<= 0]. *)
Theorem max_drawdown_total_loss_is_nan :
  FinancialModel.returns (FinancialModel.init [Fin 1; Fin 0] (Fin (4 # 100)))
    = [Fin (0 / 1 + - (1))]
  /\ FinancialModel.calculate_max_drawdown
       (FinancialModel.init [Fin 1; Fin 0] (Fin (4 # 100))) = NaN
  /\ ~ fle (FinancialModel.calculate_max_drawdown
              (FinancialModel.init [Fin 1; Fin 0] (Fin (4 # 100)))) zero.
Proof.
  split; [reflexivity|]. split; [reflexivity|].
  intros H. discriminate H.
Qed.

(** ** The optimizer and its solver *)

Section SolverOutcome.
Context `{L : Libm} (S : Scipy).

Lemma optimize_max_sharpe_outcome (self : PortfolioOptimizer.t)
    (w0 : list fl) :
  PortfolioOptimizer.initial_weights self = Ok w0 ->
  PortfolioOptimizer.optimize_max_sharpe self =
  outcome self
    (minimize (PortfolioOptimizer._negative_sharpe self) w0 "SLSQP"
       (PortfolioOptimizer.bounds self) [PortfolioOptimizer.sum_to_one]
       PortfolioOptimizer.ftol).
Proof.
  intros Hw. unfold PortfolioOptimizer.optimize_max_sharpe.
  rewrite Hw. cbn [rbind]. now destruct minimize.
Qed.

Lemma optimize_min_volatility_outcome (self : PortfolioOptimizer.t)
    (w0 : list fl) :
  PortfolioOptimizer.initial_weights self = Ok w0 ->
  PortfolioOptimizer.optimize_min_volatility self =
  outcome self
    (minimize (PortfolioOptimizer._portfolio_volatility self) w0 "SLSQP"
       (PortfolioOptimizer.bounds self) [PortfolioOptimizer.sum_to_one]
       PortfolioOptimizer.ftol).
Proof.
  intros Hw. unfold PortfolioOptimizer.optimize_min_volatility.
  rewrite Hw. cbn [rbind]. now destruct minimize.
Qed.

Lemma optimize_max_return_outcome (self : PortfolioOptimizer.t)
    (w0 : list fl) :
  PortfolioOptimizer.initial_weights self = Ok w0 ->
  PortfolioOptimizer.optimize_max_return self =
  outcome self
    (minimize (PortfolioOptimizer._negative_return self) w0 "SLSQP"
       (PortfolioOptimizer.bounds self) [PortfolioOptimizer.sum_to_one]
       PortfolioOptimizer.ftol).
Proof.
  intros Hw. unfold PortfolioOptimizer.optimize_max_return.
  rewrite Hw. cbn [rbind]. now destruct minimize.
Qed.

Lemma optimize_target_return_outcome (self : PortfolioOptimizer.t)
    (target : fl) (w0 : list fl) :
  PortfolioOptimizer.initial_weights self = Ok w0 ->
  PortfolioOptimizer.optimize_target_return self target =
  outcome self
    (minimize (PortfolioOptimizer._portfolio_volatility self) w0 "SLSQP"
       (PortfolioOptimizer.bounds self)
       [PortfolioOptimizer.sum_to_one;
        PortfolioOptimizer.hits_target self target]
       PortfolioOptimizer.ftol).
Proof.
  intros Hw. unfold PortfolioOptimizer.optimize_target_return.
  rewrite Hw. cbn [rbind]. now destruct minimize.
Qed.

End SolverOutcome.

Lemma outcome_with_success `{L : Libm} (S : Scipy) (b : bool)
    (self : PortfolioOptimizer.t) f w0 method bnds cons tol :
  outcome self (minimize (Scipy := with_success b S) f w0 method bnds cons tol)
  = outcome self (minimize (Scipy := S) f w0 method bnds cons tol).
Proof.
  cbn [minimize with_success]. now destruct (minimize f w0 method bnds cons tol).
Qed.

Lemma initial_weights_cases `{L : Libm} (self : PortfolioOptimizer.t) :
  (exists w0, PortfolioOptimizer.initial_weights self = Ok w0)
  \/ PortfolioOptimizer.initial_weights self = Raise ZeroDivisionError.
Proof.
  unfold PortfolioOptimizer.initial_weights, py_div.
  destruct (feqb _ zero); cbn [rbind]; eauto.
Qed.

(** C2 (amended).  The outcome of [optimize_max_sharpe],
    [optimize_min_volatility], [optimize_max_return] and
    [optimize_target_return] does not depend on the success flag of the
    solver: with the flag forced to either value they return the same
    result, namely the record computed from the final iterate of the solver
    (or the exception the solver raised).  No failure is raised for a
    solver that reports non-convergence. *)
Theorem optimizers_ignore_solver_success `{L : Libm} (S : Scipy) (b : bool)
    (self : PortfolioOptimizer.t) (target : fl) :
  (PortfolioOptimizer.optimize_max_sharpe (S := with_success b S) self
   = PortfolioOptimizer.optimize_max_sharpe (S := S) self
   /\ PortfolioOptimizer.optimize_min_volatility (S := with_success b S) self
      = PortfolioOptimizer.optimize_min_volatility (S := S) self
   /\ PortfolioOptimizer.optimize_max_return (S := with_success b S) self
      = PortfolioOptimizer.optimize_max_return (S := S) self
   /\ PortfolioOptimizer.optimize_target_return (S := with_success b S)
        self target
      = PortfolioOptimizer.optimize_target_return (S := S) self target)
  /\ (forall (w0 : list fl) (res : OptimizeResult),
         PortfolioOptimizer.initial_weights self = Ok w0 ->
         minimize (Scipy := S) (PortfolioOptimizer._negative_sharpe self) w0
           "SLSQP" (PortfolioOptimizer.bounds self)
           [PortfolioOptimizer.sum_to_one] PortfolioOptimizer.ftol = Ok res ->
         PortfolioOptimizer.optimize_max_sharpe (S := S) self
         = Ok (PortfolioOptimizer.result_of self res.(x)))
  /\ (forall (w0 : list fl) (res : OptimizeResult),
         PortfolioOptimizer.initial_weights self = Ok w0 ->
         minimize (Scipy := S) (PortfolioOptimizer._portfolio_volatility self)
           w0 "SLSQP" (PortfolioOptimizer.bounds self)
           [PortfolioOptimizer.sum_to_one] PortfolioOptimizer.ftol = Ok res ->
         PortfolioOptimizer.optimize_min_volatility (S := S) self
         = Ok (PortfolioOptimizer.result_of self res.(x)))
  /\ (forall (w0 : list fl) (res : OptimizeResult),
         PortfolioOptimizer.initial_weights self = Ok w0 ->
         minimize (Scipy := S) (PortfolioOptimizer._negative_return self) w0
           "SLSQP" (PortfolioOptimizer.bounds self)
           [PortfolioOptimizer.sum_to_one] PortfolioOptimizer.ftol = Ok res ->
         PortfolioOptimizer.optimize_max_return (S := S) self
         = Ok (PortfolioOptimizer.result_of self res.(x)))
  /\ (forall (w0 : list fl) (res : OptimizeResult),
         PortfolioOptimizer.initial_weights self = Ok w0 ->
         minimize (Scipy := S) (PortfolioOptimizer._portfolio_volatility self)
           w0 "SLSQP" (PortfolioOptimizer.bounds self)
           [PortfolioOptimizer.sum_to_one;
            PortfolioOptimizer.hits_target self target]
           PortfolioOptimizer.ftol = Ok res ->
         PortfolioOptimizer.optimize_target_return (S := S) self target
         = Ok (PortfolioOptimizer.result_of self res.(x))).
Proof.
  split.
  - destruct (initial_weights_cases self) as [(w0 & Hw)|Hw].
    + rewrite !(optimize_max_sharpe_outcome _ self w0 Hw),
        !(optimize_min_volatility_outcome _ self w0 Hw),
        !(optimize_max_return_outcome _ self w0 Hw),
        !(optimize_target_return_outcome _ self target w0 Hw).
      rewrite !outcome_with_success. auto.
    + unfold PortfolioOptimizer.optimize_max_sharpe,
        PortfolioOptimizer.optimize_min_volatility,
        PortfolioOptimizer.optimize_max_return,
        PortfolioOptimizer.optimize_target_return.
      rewrite Hw. auto.
  - repeat split; intros w0 res Hw Hres.
    + rewrite (optimize_max_sharpe_outcome _ self w0 Hw), Hres. reflexivity.
    + rewrite (optimize_min_volatility_outcome _ self w0 Hw), Hres.
      reflexivity.
    + rewrite (optimize_max_return_outcome _ self w0 Hw), Hres. reflexivity.
    + rewrite (optimize_target_return_outcome _ self target w0 Hw), Hres.
      reflexivity.
Qed.

Lemma optimizers_ignore_solver_success_witness :
  PortfolioOptimizer.optimize_max_sharpe (L := sample_libm)
    (S := stalled_solver) pair_optimizer
  = Ok (PortfolioOptimizer.result_of (L := sample_libm) pair_optimizer
          [Fin (1 / 2); Fin (1 / 2)]).
Proof.
  refine (proj1 (proj2 (optimizers_ignore_solver_success (L := sample_libm)
                          stalled_solver true pair_optimizer zero))
            [Fin (1 / 2); Fin (1 / 2)]
            {| x := [Fin (1 / 2); Fin (1 / 2)]; success := false |} _ _);
    reflexivity.
Defined.

(** C2 as stated fails: with a solver that reports failure on every call,
    each of the four operations still returns an [OptimizationResult], whose
    weights are the vector the failed solver handed back. *)
Lemma solver_failure_returned_as_result :
  let w := [Fin (1 / 2); Fin (1 / 2)] in
  let r := PortfolioOptimizer.result_of (L := sample_libm) pair_optimizer w in
  (forall f x0 method bnds cons tol,
      exists res,
        minimize (Scipy := stalled_solver) f x0 method bnds cons tol = Ok res
        /\ res.(success) = false)
  /\ PortfolioOptimizer.optimize_max_sharpe (L := sample_libm)
       (S := stalled_solver) pair_optimizer = Ok r
  /\ PortfolioOptimizer.optimize_min_volatility (L := sample_libm)
       (S := stalled_solver) pair_optimizer = Ok r
  /\ PortfolioOptimizer.optimize_max_return (L := sample_libm)
       (S := stalled_solver) pair_optimizer = Ok r
  /\ PortfolioOptimizer.optimize_target_return (L := sample_libm)
       (S := stalled_solver) pair_optimizer (Fin 3) = Ok r
  /\ PortfolioOptimizer.weights r = w.
Proof.
  cbv zeta. split.
  - intros. eexists. split; reflexivity.
  - repeat split; reflexivity.
Qed.

(** ** Weight vectors *)

Lemma Qsum_scaled (k : Q) (l : list Q) :
  Qsum (map (fun c => c / k) l) == Qsum l / k.
Proof.
  induction l as [|c l IH].
  - unfold Qsum. cbn [map fold_left]. unfold Qdiv. lra.
  - cbn [map]. rewrite !Qsum_cons, IH. unfold Qdiv. lra.
Qed.

Lemma sums_to_one_Fin (l : list Q) :
  Qsum l == 1 -> sums_to_one (map Fin l) = true.
Proof.
  intros Hs. unfold sums_to_one. rewrite np_sum_Fin.
  apply Qle_bool_iff.
  assert (Hz : Qsum l - 1 == 0) by lra.
  rewrite Hz. vm_compute. discriminate.
Qed.

Lemma within_bounds_repeat (lo hi w : fl) (n : nat) :
  (0 < n)%nat ->
  within_bounds lo hi (repeat w n) = fleb lo w && fleb w hi.
Proof.
  intros Hn. unfold within_bounds.
  induction n as [|n IH]; [lia|].
  cbn [repeat forallb]. destruct n as [|n].
  - cbn [repeat forallb]. now rewrite andb_true_r.
  - rewrite IH by lia. now destruct (fleb lo w && fleb w hi).
Qed.

Lemma equal_weight_value `{L : Libm} (self : PortfolioOptimizer.t) :
  let n := length self.(PortfolioOptimizer.assets) in
  (0 < n)%nat ->
  PortfolioOptimizer.equal_weight self
  = Ok (PortfolioOptimizer.result_of self
          (repeat (Fin (1 / inject_Z (Z.of_nat n))) n)).
Proof.
  intros n Hn. unfold PortfolioOptimizer.equal_weight. fold n.
  unfold one, of_nat, of_Z.
  rewrite py_div_Fin by now apply inject_nat_nonzero.
  reflexivity.
Qed.

Lemma cap_weights_Fin (cs : list Q) :
  ~ Qsum cs == 0 ->
  map (fun c => (c / np_sum (map Fin cs))%fl) (map Fin cs)
  = map Fin (map (fun c => c / Qsum cs) cs).
Proof.
  intros Hs. rewrite np_sum_Fin, !map_map.
  apply map_ext. intros c. cbn [fdiv].
  destruct (Qeq_bool (Qsum cs) 0) eqn:E; [|reflexivity].
  apply Qeq_bool_iff in E. contradiction.
Qed.

Lemma Qsum_nil : Qsum [] == 0.
Proof. reflexivity. Qed.

Lemma Qsum_nonneg (l : list Q) : Forall (fun x => 0 <= x) l -> 0 <= Qsum l.
Proof.
  induction 1 as [|x l Hx _ IH]; [rewrite Qsum_nil; lra|].
  rewrite Qsum_cons. lra.
Qed.

Lemma Qsum_member_le (l : list Q) (c : Q) :
  Forall (fun x => 0 <= x) l -> In c l -> c <= Qsum l.
Proof.
  induction 1 as [|x l Hx Hl IH]; [intros []|].
  pose proof (Qsum_nonneg l Hl) as Hs.
  rewrite Qsum_cons. intros [->|Hin]; [lra|].
  specialize (IH Hin). lra.
Qed.

(** Non-negative caps of non-zero total give weights between 0 and 1. *)
Lemma cap_weights_unit_interval (cs : list Q) :
  Forall (fun c => 0 <= c) cs -> ~ Qsum cs == 0 ->
  within_bounds zero one (map Fin (map (fun c => c / Qsum cs) cs)) = true.
Proof.
  intros Hnn Hs.
  assert (Hpos : 0 < Qsum cs).
  { pose proof (Qsum_nonneg cs Hnn) as H0.
    destruct (Qlt_le_dec 0 (Qsum cs)) as [H|H]; [exact H|].
    exfalso. apply Hs. lra. }
  unfold within_bounds. apply forallb_forall. intros w Hw.
  apply in_map_iff in Hw as (q & <- & Hq).
  apply in_map_iff in Hq as (c & <- & Hc).
  pose proof (Qsum_member_le cs c Hnn Hc) as Hle.
  rewrite List.Forall_forall in Hnn. specialize (Hnn c Hc).
  unfold zero, one. cbn [fleb].
  apply andb_true_iff. split; apply Qle_bool_iff.
  - apply Qle_shift_div_l; [exact Hpos|]. lra.
  - apply Qle_shift_div_r; [exact Hpos|]. lra.
Qed.

Lemma meets_sum_to_one (x : list fl) :
  meets (1 # 1000000) PortfolioOptimizer.sum_to_one x = sums_to_one x.
Proof.
  unfold meets, sums_to_one, PortfolioOptimizer.sum_to_one. cbn [cfun].
  destruct (np_sum x); reflexivity.
Qed.

Lemma within_repeat (lo hi : fl) (x : list fl) :
  within (repeat (lo, hi) (length x)) x = within_bounds lo hi x.
Proof.
  unfold within, within_bounds.
  rewrite repeat_length, Nat.eqb_refl. cbn [andb].
  induction x as [|xi x IH]; [reflexivity|].
  cbn [length repeat combine forallb fst snd]. now rewrite IH.
Qed.

Lemma within_length (bnds : list (fl * fl)) (x : list fl) :
  within bnds x = true -> length x = length bnds.
Proof.
  unfold within. intros H. apply andb_true_iff in H as [H _].
  now apply Nat.eqb_eq.
Qed.

(** An iterate that meets the sum-to-one constraint and the bounds of the
    optimizer is a valid weight vector. *)
Lemma asked_for_valid_weights (self : PortfolioOptimizer.t) (x : list fl) :
  meets (1 # 1000000) PortfolioOptimizer.sum_to_one x = true ->
  within (PortfolioOptimizer.bounds self) x = true ->
  valid_weights self x = true.
Proof.
  intros Hsum Hb. unfold valid_weights.
  rewrite <- meets_sum_to_one, Hsum. cbn [andb].
  pose proof (within_length _ _ Hb) as Hlen.
  unfold PortfolioOptimizer.bounds in *. rewrite repeat_length in Hlen.
  rewrite <- Hlen, within_repeat in Hb. exact Hb.
Qed.

(** C3 (amended).  [equal_weight] over [n >= 1] assets returns [n] weights
    [1/n]; they sum to 1, and they lie within [min_weight, max_weight]
    exactly when [1/n] does.  [cap_weight] with finite, non-negative caps of
    non-zero total returns [cap_i / sum cap], which lie between 0 and 1 and
    sum to 1; it does not look at the bounds.  Each of the four solver-based operations hands the sum-to-one
    constraint and the bounds [min_weight, max_weight] of every asset to the
    solver and returns the final iterate as its weights, unchecked: the
    weights are valid whenever that iterate meets the constraint within
    [1e-6] and lies within the bounds. *)
Theorem returned_weight_vectors `{L : Libm} (S : Scipy)
    (self : PortfolioOptimizer.t) :
  (let n := length self.(PortfolioOptimizer.assets) in
   (0 < n)%nat ->
   exists r,
     PortfolioOptimizer.equal_weight self = Ok r
     /\ r.(PortfolioOptimizer.weights)
        = repeat (Fin (1 / inject_Z (Z.of_nat n))) n
     /\ sums_to_one r.(PortfolioOptimizer.weights) = true
     /\ within_bounds self.(PortfolioOptimizer.min_weight)
          self.(PortfolioOptimizer.max_weight) r.(PortfolioOptimizer.weights)
        = fleb self.(PortfolioOptimizer.min_weight)
               (Fin (1 / inject_Z (Z.of_nat n)))
          && fleb (Fin (1 / inject_Z (Z.of_nat n)))
                  self.(PortfolioOptimizer.max_weight))
  /\ (forall (market_caps : gmap string fl) (cs : list Q),
         map (fun asset => default one (market_caps !! asset))
             self.(PortfolioOptimizer.assets) = map Fin cs ->
         Forall (fun c => 0 <= c) cs ->
         ~ Qsum cs == 0 ->
         let r := PortfolioOptimizer.cap_weight self market_caps in
         r.(PortfolioOptimizer.weights)
         = map Fin (map (fun c => c / Qsum cs) cs)
         /\ sums_to_one r.(PortfolioOptimizer.weights) = true
         /\ within_bounds zero one r.(PortfolioOptimizer.weights) = true)
  /\ (forall (target : fl) (w0 : list fl),
         PortfolioOptimizer.initial_weights self = Ok w0 ->
         let returns_iterate
               (op : result PortfolioOptimizer.OptimizationResult)
               (call : result OptimizeResult) :=
           forall res : OptimizeResult,
             call = Ok res ->
             exists r,
               op = Ok r
               /\ r.(PortfolioOptimizer.weights) = res.(x)
               /\ (meets (1 # 1000000) PortfolioOptimizer.sum_to_one res.(x)
                   = true ->
                   within (PortfolioOptimizer.bounds self) res.(x) = true ->
                   valid_weights self r.(PortfolioOptimizer.weights) = true)
         in
         returns_iterate
           (PortfolioOptimizer.optimize_max_sharpe (S := S) self)
           (minimize (Scipy := S) (PortfolioOptimizer._negative_sharpe self)
              w0 "SLSQP" (PortfolioOptimizer.bounds self)
              [PortfolioOptimizer.sum_to_one] PortfolioOptimizer.ftol)
         /\ returns_iterate
              (PortfolioOptimizer.optimize_min_volatility (S := S) self)
              (minimize (Scipy := S)
                 (PortfolioOptimizer._portfolio_volatility self)
                 w0 "SLSQP" (PortfolioOptimizer.bounds self)
                 [PortfolioOptimizer.sum_to_one] PortfolioOptimizer.ftol)
         /\ returns_iterate
              (PortfolioOptimizer.optimize_max_return (S := S) self)
              (minimize (Scipy := S)
                 (PortfolioOptimizer._negative_return self)
                 w0 "SLSQP" (PortfolioOptimizer.bounds self)
                 [PortfolioOptimizer.sum_to_one] PortfolioOptimizer.ftol)
         /\ returns_iterate
              (PortfolioOptimizer.optimize_target_return (S := S) self target)
              (minimize (Scipy := S)
                 (PortfolioOptimizer._portfolio_volatility self)
                 w0 "SLSQP" (PortfolioOptimizer.bounds self)
                 [PortfolioOptimizer.sum_to_one;
                  PortfolioOptimizer.hits_target self target]
                 PortfolioOptimizer.ftol)).
Proof.
  split; [|split].
  - intros n Hn. eexists. split; [now apply equal_weight_value|].
    rewrite result_of_fields. cbn [PortfolioOptimizer.weights]. fold n.
    split; [reflexivity|]. split.
    + rewrite map_Fin_repeat. apply sums_to_one_Fin.
      rewrite Qsum_repeat. field. now apply inject_nat_nonzero.
    + now apply within_bounds_repeat.
  - intros market_caps cs Hcaps Hnn Hs r. unfold r.
    unfold PortfolioOptimizer.cap_weight. rewrite result_of_fields.
    cbn [PortfolioOptimizer.weights]. rewrite Hcaps.
    rewrite (cap_weights_Fin cs Hs). split; [reflexivity|]. split.
    + apply sums_to_one_Fin. rewrite Qsum_scaled. field. exact Hs.
    + now apply cap_weights_unit_interval.
  - intros target w0 Hw returns_iterate. unfold returns_iterate.
    rewrite (optimize_max_sharpe_outcome S self w0 Hw),
      (optimize_min_volatility_outcome S self w0 Hw),
      (optimize_max_return_outcome S self w0 Hw),
      (optimize_target_return_outcome S self target w0 Hw).
    repeat split; intros res ->; cbn [outcome];
      (eexists; split; [reflexivity|]);
      rewrite result_of_fields; cbn [PortfolioOptimizer.weights];
      (split; [reflexivity|]); apply asked_for_valid_weights.
Qed.

Lemma returned_weight_vectors_witness :
  (exists r,
      PortfolioOptimizer.equal_weight (L := sample_libm) capped_optimizer
      = Ok r
      /\ sums_to_one r.(PortfolioOptimizer.weights) = true)
  /\ sums_to_one
       (PortfolioOptimizer.weights
          (PortfolioOptimizer.cap_weight (L := sample_libm)
             capped_optimizer pair_caps)) = true
  /\ exists r,
       PortfolioOptimizer.optimize_max_return (L := sample_libm)
         (S := corner_solver) capped_optimizer = Ok r
       /\ valid_weights capped_optimizer r.(PortfolioOptimizer.weights)
          = true.
Proof.
  split; [|split].
  - destruct (proj1 (returned_weight_vectors (L := sample_libm)
                       stalled_solver capped_optimizer))
      as (r & Hr & _ & Hs & _).
    + vm_compute. lia.
    + exists r. split; assumption.
  - refine (proj1 (proj2 (proj1 (proj2 (returned_weight_vectors
                                          (L := sample_libm)
                                          stalled_solver capped_optimizer))
                            pair_caps [9; 1] _ _ _))).
    + reflexivity.
    + repeat constructor; vm_compute; discriminate.
    + vm_compute. discriminate.
  - destruct (proj2 (proj2 (returned_weight_vectors (L := sample_libm)
                              corner_solver capped_optimizer))
                zero [Fin (1 / 2); Fin (1 / 2)] eq_refl)
      as (_ & _ & Hmax & _).
    destruct (Hmax {| x := [Fin (1 / 2); Fin (1 / 2)]; success := true |})
      as (r & Hr & _ & Hvalid).
    + vm_compute. reflexivity.
    + exists r. split; [exact Hr|]. apply Hvalid; vm_compute; reflexivity.
Defined.

(** C3 as stated fails, for every kind of operation.  With weights capped at
    0.6, market capitalisations of 9 and 1 give the weights 0.9 and 0.1, the
    first above the cap; capitalisations of 0 give [0/0] for every weight,
    and capitalisations of 2 and -1 give the weights 2 and -1.  With weights
    capped at 0.4, [equal_weight] over two assets returns 0.5
    twice.  With a solver that fails and hands back (1, 1), each of the four
    solver-based operations returns these weights, whose sum is 2. *)
Lemma returned_weights_can_be_invalid :
  (let r := PortfolioOptimizer.cap_weight (L := sample_libm)
              capped_optimizer pair_caps in
   r.(PortfolioOptimizer.weights)
   = [Fin (9 / (0 + 9 + 1)); Fin (1 / (0 + 9 + 1))]
   /\ capped_optimizer.(PortfolioOptimizer.max_weight) = Fin (6 # 10)
   /\ valid_weights capped_optimizer r.(PortfolioOptimizer.weights) = false)
  /\ (let r := PortfolioOptimizer.cap_weight (L := sample_libm)
                 capped_optimizer zero_caps in
      r.(PortfolioOptimizer.weights) = [NaN; NaN]
      /\ sums_to_one r.(PortfolioOptimizer.weights) = false)
  /\ (let r := PortfolioOptimizer.cap_weight (L := sample_libm)
                 pair_optimizer mixed_caps in
      r.(PortfolioOptimizer.weights)
      = [Fin (2 / (0 + 2 + -1)); Fin (-1 / (0 + 2 + -1))]
      /\ valid_weights pair_optimizer r.(PortfolioOptimizer.weights) = false)
  /\ (exists r,
         PortfolioOptimizer.equal_weight (L := sample_libm) tight_optimizer
         = Ok r
         /\ r.(PortfolioOptimizer.weights) = [Fin (1 / 2); Fin (1 / 2)]
         /\ tight_optimizer.(PortfolioOptimizer.max_weight) = Fin (4 # 10)
         /\ valid_weights tight_optimizer r.(PortfolioOptimizer.weights)
            = false)
  /\ (let w := [Fin (1 / 2 + 1 / 2); Fin (1 / 2 + 1 / 2)] in
      let r := PortfolioOptimizer.result_of (L := sample_libm)
                 pair_optimizer w in
      PortfolioOptimizer.optimize_max_sharpe (L := sample_libm)
        (S := overshooting_solver) pair_optimizer = Ok r
      /\ PortfolioOptimizer.optimize_min_volatility (L := sample_libm)
           (S := overshooting_solver) pair_optimizer = Ok r
      /\ PortfolioOptimizer.optimize_max_return (L := sample_libm)
           (S := overshooting_solver) pair_optimizer = Ok r
      /\ PortfolioOptimizer.optimize_target_return (L := sample_libm)
           (S := overshooting_solver) pair_optimizer (Fin 3) = Ok r
      /\ PortfolioOptimizer.weights r = w
      /\ sums_to_one w = false
      /\ valid_weights pair_optimizer w = false).
Proof.
  cbv zeta. split; [|split; [|split; [|split]]].
  - split; [reflexivity|]. split; [reflexivity|]. vm_compute. reflexivity.
  - split; vm_compute; reflexivity.
  - split; [reflexivity|]. vm_compute. reflexivity.
  - eexists. split; [reflexivity|]. split; [reflexivity|].
    split; [reflexivity|]. vm_compute. reflexivity.
  - repeat split; try reflexivity; vm_compute; reflexivity.
Qed.

(** ** Efficient frontier *)

Lemma set_last_length (l : list fl) (v : fl) :
  length (set_last l v) = length l.
Proof.
  induction l as [|y l IH]; [reflexivity|].
  destruct l as [|z l]; [reflexivity|].
  change (set_last (y :: z :: l) v) with (y :: set_last (z :: l) v).
  cbn [length] in *. now rewrite IH.
Qed.

Lemma set_last_nth (l : list fl) (v d : fl) (i : nat) :
  (i < length l)%nat ->
  nth i (set_last l v) d
  = if (S i =? length l)%nat then v else nth i l d.
Proof.
  revert i. induction l as [|y l IH]; intros i Hi; [simpl in Hi; lia|].
  destruct l as [|z l].
  - destruct i; [reflexivity|simpl in Hi; lia].
  - change (set_last (y :: z :: l) v) with (y :: set_last (z :: l) v).
    destruct i as [|i]; [reflexivity|].
    cbn [nth]. rewrite IH by (simpl in *; lia).
    reflexivity.
Qed.

Lemma nth_map_seq {A} (f : nat -> A) (d : A) (n i : nat) :
  (i < n)%nat -> nth i (map f (seq 0 n)) d = f i.
Proof.
  intros Hi.
  rewrite (nth_indep _ d (f 0%nat)) by (now rewrite length_map, length_seq).
  rewrite (map_nth f). now rewrite seq_nth.
Qed.

Lemma np_linspace_length (a b : fl) (num : Z) (l : list fl) :
  np_linspace a b num = Ok l -> length l = Z.to_nat num.
Proof.
  unfold np_linspace. destruct (num <? 0)%Z; [discriminate|].
  destruct (1 <? Z.to_nat num)%nat; intros [= <-].
  - now rewrite set_last_length, length_map, length_seq.
  - now rewrite length_map, length_seq.
Qed.

(** The targets of a sweep of [num >= 2] points between finite ends: point
    [i] is [a + i (b - a) / (num - 1)]. *)
Lemma np_linspace_even (a b : Q) (num : Z) (l : list fl) (i : nat) :
  (2 <= num)%Z -> np_linspace (Fin a) (Fin b) num = Ok l ->
  (i < Z.to_nat num)%nat ->
  feq (nth i l NaN)
      (Fin (a + inject_Z (Z.of_nat i) * (b - a) / (inject_Z num - 1))).
Proof.
  intros Hnum Hl Hi. unfold np_linspace in Hl.
  replace (num <? 0)%Z with false in Hl by (symmetry; apply Z.ltb_ge; lia).
  replace (1 <? Z.to_nat num)%nat with true in Hl
    by (symmetry; apply Nat.ltb_lt; lia).
  injection Hl as <-.
  set (n := Z.to_nat num) in *.
  assert (Hn1 : inject_Z (Z.of_nat (n - 1)) == inject_Z num - 1).
  { replace (Z.of_nat (n - 1)) with (num - 1)%Z by (unfold n; lia).
    unfold Z.sub. rewrite inject_Z_plus.
    change (inject_Z (- (1))) with (- (1)). lra. }
  assert (Hpos : 0 < inject_Z (Z.of_nat (n - 1))).
  { apply inject_nat_pos. unfold n. lia. }
  rewrite set_last_nth by (now rewrite length_map, length_seq).
  rewrite length_map, length_seq.
  destruct (S i =? n)%nat eqn:E.
  - apply Nat.eqb_eq in E. cbn [feq].
    assert (Hi' : inject_Z (Z.of_nat i) == inject_Z num - 1).
    { rewrite <- Hn1. now replace (n - 1)%nat with i by lia. }
    rewrite Hi'. field. lra.
  - rewrite nth_map_seq by exact Hi. cbv beta.
    unfold fsub. cbn [fneg fadd].
    destruct (Qeq_bool (inject_Z (Z.of_nat (n - 1))) 0) eqn:Ez;
      [apply Qeq_bool_iff in Ez; lra|].
    cbn [fadd feq]. rewrite Hn1. field. lra.
Qed.

Section Sweep.
Context `{L : Libm} `{S : Scipy}.

Lemma frontier_loop_spec (self : PortfolioOptimizer.t) (targets : list fl)
    (vs rs ss : list fl) :
  let pts := successful_points self targets in
  PortfolioOptimizer.frontier_loop self targets vs rs ss
  = (vs ++ map PortfolioOptimizer.volatility pts,
     rs ++ map PortfolioOptimizer.expected_return pts,
     ss ++ map PortfolioOptimizer.sharpe_ratio pts).
Proof.
  cbv zeta. revert vs rs ss.
  induction targets as [|t targets IH]; intros vs rs ss.
  - cbn. now rewrite !app_nil_r.
  - cbn [PortfolioOptimizer.frontier_loop successful_points flat_map].
    destruct (PortfolioOptimizer.optimize_target_return self t) as [r|e].
    + rewrite IH. unfold successful_points.
      cbn [app map]. now rewrite <- !app_assoc.
    + rewrite IH. reflexivity.
Qed.

Lemma successful_skipped_count (self : PortfolioOptimizer.t)
    (targets : list fl) :
  (length (successful_points self targets) + skipped_points self targets
   = length targets)%nat.
Proof.
  unfold successful_points, skipped_points.
  induction targets as [|t targets IH]; [reflexivity|].
  cbn [flat_map List.filter].
  destruct (PortfolioOptimizer.optimize_target_return self t);
    cbn [app length]; lia.
Qed.

(** The dictionary a sweep over [targets] returns. *)
Lemma generate_efficient_frontier_value (self : PortfolioOptimizer.t)
    (N : Z) (targets : list fl) :
  PortfolioOptimizer.frontier_targets self N = Ok targets ->
  let pts := successful_points self targets in
  PortfolioOptimizer.generate_efficient_frontier self N
  = Ok (<["volatilities" := map PortfolioOptimizer.volatility pts]>
        (<["returns" := map PortfolioOptimizer.expected_return pts]>
         (<["sharpe_ratios" := map PortfolioOptimizer.sharpe_ratio pts]> ∅))).
Proof.
  intros Ht pts. unfold PortfolioOptimizer.generate_efficient_frontier.
  rewrite Ht. cbn [rbind]. now rewrite frontier_loop_spec.
Qed.

Lemma frontier_dict_dom (vs rs ss : list fl) :
  dom (<["volatilities" := vs]>
       (<["returns" := rs]> (<["sharpe_ratios" := ss]>
          (∅ : gmap string (list fl)))))
  = frontier_keys.
Proof.
  unfold frontier_keys. rewrite !dom_insert_L, dom_empty_L. set_solver.
Qed.

Lemma frontier_dict_returns (vs rs ss : list fl) :
  (<["volatilities" := vs]>
   (<["returns" := rs]> (<["sharpe_ratios" := ss]>
      (∅ : gmap string (list fl))))) !! "returns" = Some rs.
Proof.
  rewrite lookup_insert_ne by discriminate. now rewrite lookup_insert_eq.
Qed.

End Sweep.

(** C5 (amended).  [generate_efficient_frontier] sweeps the [N] targets
    [np.linspace(min_ret, max_ret, N)], which for [N >= 2] and finite ends
    are evenly spaced from [min_ret] to [max_ret] inclusive.  A target whose
    optimization raises is left out and the sweep goes on; every other
    target is kept, in sweep order.  The returned dictionary holds the three
    aligned arrays and nothing else: the number of skipped points is not
    reported, it is [N] minus the length of the arrays. *)
Theorem efficient_frontier_sweep `{L : Libm} `{S : Scipy}
    (self : PortfolioOptimizer.t) (N : Z) (targets : list fl) :
  PortfolioOptimizer.frontier_targets self N = Ok targets ->
  let pts := successful_points self targets in
  (exists d : gmap string (list fl),
      PortfolioOptimizer.generate_efficient_frontier self N = Ok d
      /\ d !! "volatilities" = Some (map PortfolioOptimizer.volatility pts)
      /\ d !! "returns" = Some (map PortfolioOptimizer.expected_return pts)
      /\ d !! "sharpe_ratios" = Some (map PortfolioOptimizer.sharpe_ratio pts)
      /\ dom d = frontier_keys)
  /\ length targets = Z.to_nat N
  /\ (length pts + skipped_points self targets = Z.to_nat N)%nat
  /\ (forall (rmin rmax : PortfolioOptimizer.OptimizationResult) (a b : Q)
             (i : nat),
         PortfolioOptimizer.optimize_min_volatility self = Ok rmin ->
         PortfolioOptimizer.optimize_max_return self = Ok rmax ->
         rmin.(PortfolioOptimizer.expected_return) = Fin a ->
         rmax.(PortfolioOptimizer.expected_return) = Fin b ->
         (2 <= N)%Z -> (i < Z.to_nat N)%nat ->
         feq (nth i targets NaN)
             (Fin (a + inject_Z (Z.of_nat i) * (b - a) / (inject_Z N - 1)))).
Proof.
  intros Ht pts.
  assert (Hlen : length targets = Z.to_nat N).
  { unfold PortfolioOptimizer.frontier_targets in Ht.
    destruct (PortfolioOptimizer.optimize_min_volatility self);
      [|discriminate Ht].
    destruct (PortfolioOptimizer.optimize_max_return self);
      [|discriminate Ht].
    cbn [rbind] in Ht. now apply np_linspace_length in Ht. }
  split; [|split; [exact Hlen|split]].
  - rewrite (generate_efficient_frontier_value self N targets Ht).
    fold pts. eexists. split; [reflexivity|].
    split; [|split; [|split]].
    + now rewrite lookup_insert_eq.
    + apply frontier_dict_returns.
    + rewrite !lookup_insert_ne by discriminate. now rewrite lookup_insert_eq.
    + apply frontier_dict_dom.
  - rewrite <- Hlen. apply successful_skipped_count.
  - intros rmin rmax a b i Hmin Hmax Ha Hb HN Hi.
    unfold PortfolioOptimizer.frontier_targets in Ht.
    rewrite Hmin, Hmax in Ht. cbn [rbind] in Ht. rewrite Ha, Hb in Ht.
    now apply (np_linspace_even a b N targets i).
Qed.

Lemma efficient_frontier_sweep_witness :
  exists d : gmap string (list fl),
    PortfolioOptimizer.generate_efficient_frontier (L := sample_libm)
      (S := corner_solver) pair_optimizer 3 = Ok d
    /\ dom d = frontier_keys.
Proof.
  edestruct (efficient_frontier_sweep (L := sample_libm) (S := corner_solver)
               pair_optimizer 3)
    as ((d & Hd & _ & _ & _ & Hdom) & _).
  - vm_compute. reflexivity.
  - exists d. split; assumption.
Defined.

(** C5 as stated fails.  With a solver that reports failure on every solve
    no point is skipped: the three targets all come back.  With a solver
    that raises on the middle target that point is skipped, and the
    dictionary returned holds the three arrays only, with no count of the
    skipped point. *)
Lemma frontier_reports_no_skipped_count :
  (exists d : gmap string (list fl),
      PortfolioOptimizer.generate_efficient_frontier (L := sample_libm)
        (S := stalled_solver) pair_optimizer 3 = Ok d
      /\ length <$> d !! "returns" = Some 3%nat
      /\ dom d = frontier_keys)
  /\ (exists (d : gmap string (list fl)) (targets : list fl),
         PortfolioOptimizer.frontier_targets (L := sample_libm)
           (S := corner_solver) pair_optimizer 3 = Ok targets
         /\ skipped_points (L := sample_libm) (S := corner_solver)
              pair_optimizer targets = 1%nat
         /\ PortfolioOptimizer.generate_efficient_frontier (L := sample_libm)
              (S := corner_solver) pair_optimizer 3 = Ok d
         /\ length <$> d !! "returns" = Some 2%nat
         /\ dom d = frontier_keys).
Proof.
  split.
  - eexists. split; [|split].
    + eapply (generate_efficient_frontier_value (L := sample_libm)
                (S := stalled_solver)).
      vm_compute. reflexivity.
    + rewrite frontier_dict_returns. vm_compute. reflexivity.
    + apply frontier_dict_dom.
  - eexists. eexists. split; [vm_compute; reflexivity|].
    split; [vm_compute; reflexivity|].
    split; [|split].
    + eapply (generate_efficient_frontier_value (L := sample_libm)
                (S := corner_solver)).
      vm_compute. reflexivity.
    + rewrite frontier_dict_returns. vm_compute. reflexivity.
    + apply frontier_dict_dom.
Qed.

(** ** Monte Carlo VaR and the global generator *)

(** C4 (amended).  [calculate_monte_carlo_var] has no seed parameter; it
    draws from the process-global generator of numpy: one call of
    [np.random.normal(mean, std, simulations)] in the state the generator is
    in, which it leaves advanced.  The VaR is the percentile of that sample
    and the CVaR the mean of the drawn values at or below it, so a second
    call with the same arguments is computed from the advanced state.  Two
    calls with the same arguments, each made right after
    [np.random.seed(k)], return identical (VaR, CVaR) values, whatever the
    state of the generator was before. *)
Theorem monte_carlo_var_draws_from_global_generator `{L : Libm}
    `{R : NumpyRandom} (returns : list fl) (c : Q) (simulations : Z)
    (g : rng_state) :
  let draw :=
    random_normal (pd_mean returns) (pd_std returns)
                  (Z.to_nat simulations) in
  (0 <= simulations)%Z -> 0 <= c -> c <= 1 ->
  all_finite (fst (draw g)) -> fst (draw g) <> [] ->
  exists var cvar : Q,
    MetricsCalculator.calculate_monte_carlo_var returns (Fin c) simulations g
    = (Ok (Fin var, Fin cvar), snd (draw g))
    /\ np_percentile (fst (draw g)) ((one - Fin c) * Fin 100)%fl
       = Ok (Fin var)
    /\ Exists (fun r => fle r (Fin var)) (fst (draw g))
    /\ np_mean (List.filter (fun r => (r <=? Fin var)%fl) (fst (draw g)))
       = Fin cvar
    /\ two_calls returns (Fin c) simulations g
       = (Ok (Fin var, Fin cvar),
          fst (MetricsCalculator.calculate_monte_carlo_var returns (Fin c)
                 simulations (snd (draw g))))
    /\ forall (k : Z) (g0 : rng_state),
         fst (two_reseeded_calls k returns (Fin c) simulations g0)
         = snd (two_reseeded_calls k returns (Fin c) simulations g0)
         /\ fst (two_reseeded_calls k returns (Fin c) simulations g0)
            = fst (MetricsCalculator.calculate_monte_carlo_var returns
                     (Fin c) simulations (random_seed k)).
Proof.
  intros draw Hsim Hc0 Hc1 Hfin Hne.
  destruct (tail_below_percentile (fst (draw g)) ((1 + - c) * 100) Hfin Hne
              ltac:(nra) ltac:(nra))
    as (var & cvar & Hvar & Htail & Hall & _ & Hnm & _).
  cbv zeta in Htail, Hall, Hnm.
  change (Fin ((1 + - c) * 100)) with ((one - Fin c) * Fin 100)%fl in Hvar.
  assert (Hcall : MetricsCalculator.calculate_monte_carlo_var returns (Fin c)
                    simulations g
                  = (Ok (Fin var, Fin cvar), snd (draw g))).
  { unfold MetricsCalculator.calculate_monte_carlo_var.
    replace (simulations <? 0)%Z with false by (symmetry; lia).
    fold draw. destruct (draw g) as [sim g1]. cbn [fst snd] in *.
    rewrite Hvar. cbn [rbind]. now rewrite Hnm. }
  exists var, cvar.
  split; [exact Hcall|]. split; [exact Hvar|]. split.
  { destruct (List.filter (fun r => (r <=? Fin var)%fl) (fst (draw g)))
      as [|r tl] eqn:E; [congruence|].
    assert (Hin : In r (List.filter (fun r => (r <=? Fin var)%fl)
                                    (fst (draw g))))
      by (rewrite E; now left).
    apply filter_In in Hin as [Hin Hr].
    apply List.Exists_exists. exists r. split; assumption. }
  split; [exact Hnm|]. split.
  { unfold two_calls. rewrite Hcall.
    now destruct (MetricsCalculator.calculate_monte_carlo_var returns (Fin c)
                    simulations (snd (draw g))). }
  intros k g0. unfold two_reseeded_calls, np_random_seed.
  destruct (MetricsCalculator.calculate_monte_carlo_var returns (Fin c)
              simulations (random_seed k)) as [r g'].
  split; reflexivity.
Qed.

Lemma monte_carlo_var_draws_from_global_generator_witness :
  exists var cvar : Q,
    MetricsCalculator.calculate_monte_carlo_var (L := sample_libm)
      (R := counter_rng) [Fin (-1 # 100); Fin 0; Fin (1 # 100)]
      (Fin (95 # 100)) 3 0%Z
    = (Ok (Fin var, Fin cvar), 3%Z).
Proof.
  destruct (monte_carlo_var_draws_from_global_generator (L := sample_libm)
              (R := counter_rng) [Fin (-1 # 100); Fin 0; Fin (1 # 100)]
              (95 # 100) 3 0%Z)
    as (var & cvar & Hcall & _).
  - lia.
  - vm_compute. discriminate.
  - vm_compute. discriminate.
  - vm_normalise (random_normal (NumpyRandom := counter_rng)
                    (pd_mean [Fin (-1 # 100); Fin 0; Fin (1 # 100)])
                    (pd_std (L := sample_libm)
                       [Fin (-1 # 100); Fin 0; Fin (1 # 100)])
                    (Z.to_nat 3) 0%Z).
    repeat constructor.
  - vm_normalise (random_normal (NumpyRandom := counter_rng)
                    (pd_mean [Fin (-1 # 100); Fin 0; Fin (1 # 100)])
                    (pd_std (L := sample_libm)
                       [Fin (-1 # 100); Fin 0; Fin (1 # 100)])
                    (Z.to_nat 3) 0%Z).
    discriminate.
  - exists var, cvar. exact Hcall.
Defined.

(** C4 as stated fails: two calls in a row with the same arguments draw
    different samples from the global generator and return different VaR
    values. *)
Lemma monte_carlo_var_not_reproducible :
  exists var1 cvar1 var2 cvar2 : fl,
    two_calls (L := sample_libm) (R := counter_rng)
      [Fin (-1 # 100); Fin 0; Fin (1 # 100)] (Fin (95 # 100)) 3 0%Z
    = (Ok (var1, cvar1), Ok (var2, cvar2))
    /\ feq var1 (Fin (-19 # 1000))
    /\ feq var2 (Fin (-17 # 1000))
    /\ ~ feq var1 var2.
Proof.
  do 4 eexists. split; [vm_compute; reflexivity|].
  split; [vm_compute; reflexivity|].
  split; [vm_compute; reflexivity|].
  vm_compute. discriminate.
Qed.

(** * Further properties of the code *)

(** ** Win rate *)



Lemma Qnat_le (m n : nat) : (m <= n)%nat -> Qnat m <= Qnat n.
Proof. intros H. unfold Qnat. rewrite <- Zle_Qle. lia. Qed.



(** ** Sums of rationals *)

Lemma Qsquare_nonneg (a : Q) : 0 <= a * a.
Proof.
  destruct (Qlt_le_dec a 0) as [Hneg|Hpos].
  - assert (E : a * a == (- a) * (- a)) by ring.
    rewrite E. apply Qmult_le_0_compat; lra.
  - apply Qmult_le_0_compat; lra.
Qed.


(** ** Guarded ratios *)

Lemma fabs_nonzero (y : fl) : feqb y zero = false -> feqb (fabs y) zero = false.
Proof.
  destruct y as [q| | |]; cbn [fabs feqb zero]; try reflexivity.
  intros Hq. apply Qeq_bool_neq in Hq.
  destruct (Qeq_bool (Qabs q) 0) eqn:E; [|reflexivity].
  apply Qeq_bool_iff in E. exfalso. apply Hq.
  destruct (Qlt_le_dec q 0) as [Hneg|Hpos].
  - rewrite Qabs_neg in E by lra. lra.
  - rewrite Qabs_pos in E by lra. exact E.
Qed.

Lemma Qabs_pos_lt (q : Q) : ~ q == 0 -> 0 < Qabs q.
Proof.
  intros Hq. destruct (Qlt_le_dec q 0) as [Hneg|Hpos].
  - rewrite Qabs_neg by lra. lra.
  - rewrite Qabs_pos by lra.
    destruct (Qlt_le_dec 0 q) as [H|H]; [exact H|]. exfalso. apply Hq. lra.
Qed.

(** [calculate_recovery_factor], [calculate_calmar_ratio] and
    [calculate_treynor_ratio] never raise, whatever floats they are given:
    the zero test in front of the division covers every divisor on which
    Python's [/] raises.  On finite arguments the first two return the finite
    quotient by the size of the drawdown, which has the sign of the return
    and does not depend on the sign of the drawdown. *)
Theorem guarded_ratios_never_raise :
  (forall x y : fl,
      exists v, MetricsCalculator.calculate_recovery_factor x y = Ok v)
  /\ (forall x y : fl,
         exists v, MetricsCalculator.calculate_calmar_ratio x y = Ok v)
  /\ (forall p b rf : fl,
         exists v, MetricsCalculator.calculate_treynor_ratio p b rf = Ok v)
  /\ (forall a d : Q,
         exists r r' : Q,
           MetricsCalculator.calculate_calmar_ratio (Fin a) (Fin d)
           = Ok (Fin r)
           /\ MetricsCalculator.calculate_recovery_factor (Fin a) (Fin d)
              = Ok (Fin r)
           /\ MetricsCalculator.calculate_calmar_ratio (Fin a) (Fin (- d))
              = Ok (Fin r')
           /\ r == r'
           /\ (d == 0 -> r == 0)
           /\ (~ d == 0 -> r == a / Qabs d)
           /\ (0 <= a -> 0 <= r)).
Proof.
  split; [|split; [|split]].
  - intros x y. unfold MetricsCalculator.calculate_recovery_factor.
    destruct (feqb y zero) eqn:E; [eauto|].
    unfold py_div. rewrite (fabs_nonzero y E). eauto.
  - intros x y. unfold MetricsCalculator.calculate_calmar_ratio.
    destruct (feqb y zero) eqn:E; [eauto|].
    unfold py_div. rewrite (fabs_nonzero y E). eauto.
  - intros p b rf. unfold MetricsCalculator.calculate_treynor_ratio.
    destruct (feqb b zero) eqn:E; [eauto|].
    unfold py_div. rewrite E. eauto.
  - intros a d.
    unfold MetricsCalculator.calculate_calmar_ratio,
      MetricsCalculator.calculate_recovery_factor.
    cbn [feqb zero fabs].
    assert (Hneg : Qeq_bool (- d) 0 = Qeq_bool d 0).
    { destruct (Qeq_bool d 0) eqn:E.
      - apply Qeq_bool_iff in E. apply Qeq_bool_iff. lra.
      - apply Qeq_bool_neq in E.
        destruct (Qeq_bool (- d) 0) eqn:E'; [|reflexivity].
        apply Qeq_bool_iff in E'. exfalso. apply E. lra. }
    rewrite Hneg.
    destruct (Qeq_bool d 0) eqn:E.
    + apply Qeq_bool_iff in E. exists 0, 0.
      repeat split; try reflexivity; try lra.
    + apply Qeq_bool_neq in E.
      assert (E' : ~ - d == 0) by (intros H; apply E; lra).
      pose proof (Qabs_pos_lt d E) as Hp.
      pose proof (Qabs_pos_lt (- d) E') as Hp'.
      rewrite !py_div_Fin by lra.
      exists (a / Qabs d), (a / Qabs (- d)).
      split; [reflexivity|]. split; [reflexivity|]. split; [reflexivity|].
      split; [now rewrite Qabs_opp|].
      split; [intros Hd; contradiction|].
      split; [reflexivity|].
      intros Ha. apply Qle_shift_div_l; [exact Hp|]. lra.
Qed.

(** ** Variance and covariance of finite series *)

Lemma pd_var_Fin (l : list Q) :
  (2 <= length l)%nat ->
  pd_var (map Fin l)
  = Fin (Qsum (map (fun x => (Qmean l + - x) * (Qmean l + - x)) l)
         / Qnat (length l - 1)).
Proof.
  intros Hn. unfold pd_var. rewrite dropna_Fin, length_map.
  replace (length l <=? 1)%nat with false
    by (symmetry; apply Nat.leb_gt; lia).
  rewrite np_sum_Fin, fdiv_Fin_nat by lia.
  fold (Qnat (length l)). fold (Qmean l).
  rewrite map_map. unfold fsub. cbn [fneg fadd fmul].
  rewrite <- (map_map (fun x => (Qmean l + - x) * (Qmean l + - x)) Fin).
  rewrite np_sum_Fin, fdiv_Fin_nat by lia. reflexivity.
Qed.

Lemma map2_Fin {f : fl -> fl -> fl} {g : Q -> Q -> Q} (a b : list Q) :
  (forall x y, f (Fin x) (Fin y) = Fin (g x y)) ->
  map2 f (map Fin a) (map Fin b) = map Fin (map2 g a b).
Proof.
  intros Hfg. revert b.
  induction a as [|x a IH]; intros [|y b]; cbn [map map2]; try reflexivity.
  now rewrite Hfg, IH.
Qed.

Lemma cov_pair_Fin (a b : list Q) :
  (2 <= length a)%nat ->
  cov_pair (map Fin a) (map Fin b)
  = Fin (Qsum (map2 (fun x y => (x + - Qmean a)
                                * (y + - (Qsum b / Qnat (length a)))) a b)
         / Qnat (length a - 1)).
Proof.
  intros Hn. unfold cov_pair. rewrite length_map.
  replace (length a <=? 1)%nat with false
    by (symmetry; apply Nat.leb_gt; lia).
  rewrite !np_sum_Fin, !fdiv_Fin_nat by lia.
  fold (Qnat (length a)). fold (Qmean a).
  rewrite (map2_Fin (g := fun x y => (x + - Qmean a)
                                     * (y + - (Qsum b / Qnat (length a)))))
    by reflexivity.
  rewrite np_sum_Fin, fdiv_Fin_nat by lia. reflexivity.
Qed.

Lemma map2_diag {A B} (f : A -> A -> B) (l : list A) :
  map2 f l l = map (fun x => f x x) l.
Proof. induction l as [|x l IH]; cbn [map2 map]; congruence. Qed.

(** ** Information ratio *)

Lemma Qsum_zero (f : Q -> Q) (l : list Q) :
  (forall x, f x == 0) -> Qsum (map f l) == 0.
Proof.
  intros Hf. induction l as [|x l IH]; [reflexivity|].
  cbn [map]. rewrite Qsum_cons, IH, Hf. lra.
Qed.

Lemma Qsum_zero_Forall (f : Q -> Q) (l : list Q) :
  Forall (fun x => f x == 0) l -> Qsum (map f l) == 0.
Proof.
  induction 1 as [|x l Hx _ IH]; [reflexivity|].
  cbn [map]. rewrite Qsum_cons, IH, Hx. lra.
Qed.

Lemma np_sqrt_zero `{L : Libm} (Laws : LibmLaws L) (v : Q) :
  v == 0 -> exists s, np_sqrt (Fin v) = Fin s /\ s == 0.
Proof.
  intros Hv. unfold np_sqrt.
  replace (Qltb v 0) with false.
  - eexists. split; [reflexivity|]. now apply sqrtQ_zero.
  - symmetry. unfold Qltb. apply negb_false_iff. apply Qle_bool_iff. lra.
Qed.

Lemma np_sqrt_nonneg_finite `{L : Libm} (v : Q) :
  0 <= v -> np_sqrt (Fin v) = Fin (sqrtQ v).
Proof.
  intros Hv. unfold np_sqrt.
  replace (Qltb v 0) with false; [reflexivity|].
  symmetry. unfold Qltb. apply negb_false_iff. now apply Qle_bool_iff.
Qed.

(** A finite series measured against itself has an information ratio of
    exactly 0 when it has at least two observations (the tracking error is
    0 and the guard applies), and nan when it has fewer. *)
Theorem information_ratio_against_itself `{L : Libm} (Laws : LibmLaws L)
    (l : list Q) (periods_per_year : Z) :
  (0 <= periods_per_year)%Z ->
  ((2 <= length l)%nat ->
   MetricsCalculator.calculate_information_ratio (map Fin l) (map Fin l)
     periods_per_year = zero)
  /\ ((length l < 2)%nat ->
      MetricsCalculator.calculate_information_ratio (map Fin l) (map Fin l)
        periods_per_year = NaN).
Proof.
  intros Hppy. unfold MetricsCalculator.calculate_information_ratio.
  rewrite (map2_Fin (f := fsub) (g := fun x y => x + - y)) by reflexivity.
  rewrite map2_diag.
  set (E := map (fun x => x + - x) l).
  assert (HlenE : length E = length l) by (unfold E; apply length_map).
  split; intros Hlen.
  - unfold pd_std. rewrite pd_var_Fin by lia.
    assert (Hm : Qmean E == 0).
    { unfold Qmean. unfold E at 1. rewrite Qsum_zero by (intros x; ring).
      unfold Qnat. field. apply inject_nat_nonzero. lia. }
    assert (HE : Forall (fun e => e == 0) E).
    { unfold E. apply List.Forall_forall. intros e He.
      apply in_map_iff in He as (x & <- & _). ring. }
    assert (Hv : Qsum (map (fun x => (Qmean E + - x) * (Qmean E + - x)) E)
                 / Qnat (length E - 1) == 0).
    { rewrite Qsum_zero_Forall.
      - unfold Qnat. field. apply inject_nat_nonzero. lia.
      - eapply List.Forall_impl; [|exact HE].
        intros e He. cbv beta in *. rewrite Hm, He. ring. }
    destruct (np_sqrt_zero Laws _ Hv) as (s & -> & Hs).
    unfold of_Z. rewrite np_sqrt_nonneg_finite
      by (change 0 with (inject_Z 0); rewrite <- Zle_Qle; exact Hppy).
    cbn [fmul feqb zero].
    replace (Qeq_bool (s * sqrtQ (inject_Z periods_per_year)) 0) with true;
      [reflexivity|].
    symmetry. apply Qeq_bool_iff. rewrite Hs. ring.
  - rewrite pd_std_short by (rewrite length_map; lia).
    cbn [fmul feqb]. apply fdiv_nan_r.
Qed.

Lemma information_ratio_against_itself_witness :
  MetricsCalculator.calculate_information_ratio (L := sample_libm)
    (map Fin [1 # 100; -2 # 100; 3 # 100])
    (map Fin [1 # 100; -2 # 100; 3 # 100]) 252 = zero.
Proof.
  apply (proj1 (information_ratio_against_itself (L := sample_libm)
                  sample_libm_laws [1 # 100; -2 # 100; 3 # 100] 252
                  ltac:(lia))).
  simpl. lia.
Defined.

(** ** Returns from prices *)

Lemma pct_change_from_Fin (prev : Q) (ps : list Q) :
  Forall (fun p => ~ p == 0) (prev :: ps) ->
  pct_change_from (Fin prev) (map Fin ps) = map Fin (Qreturns_from prev ps).
Proof.
  revert prev. induction ps as [|p ps IH]; intros prev Hnz; [reflexivity|].
  inversion Hnz as [|? ? Hprev Hps]; subst.
  cbn [map pct_change_from Qreturns_from]. rewrite IH by exact Hps.
  unfold fsub, one. cbn [fdiv fneg].
  destruct (Qeq_bool prev 0) eqn:E;
    [apply Qeq_bool_iff in E; contradiction|].
  reflexivity.
Qed.

Lemma init_returns_Fin (p0 : Q) (rest : list Q) (rf : fl) :
  Forall (fun p => ~ p == 0) (p0 :: rest) ->
  FinancialModel.returns (FinancialModel.init (map Fin (p0 :: rest)) rf)
  = map Fin (Qreturns_from p0 rest).
Proof.
  intros Hnz. cbn [FinancialModel.init FinancialModel.returns map pct_change].
  rewrite pct_change_from_Fin by exact Hnz.
  unfold dropna at 1. cbn [List.filter is_nan negb].
  apply dropna_Fin.
Qed.

Lemma Qreturns_from_length (prev : Q) (ps : list Q) :
  length (Qreturns_from prev ps) = length ps.
Proof.
  revert prev. induction ps as [|p ps IH]; intros prev; [reflexivity|].
  cbn [Qreturns_from length]. now rewrite IH.
Qed.

(** ** Shape of the return series *)

Lemma shift_length (k : Z) (s : list fl) : length (shift k s) = length s.
Proof.
  unfold shift. destruct (0 <=? k)%Z.
  - rewrite length_app, repeat_length, length_firstn. lia.
  - rewrite length_app, repeat_length, length_skipn. lia.
Qed.

Lemma map2_length {A B C} (f : A -> B -> C) (a : list A) (b : list B) :
  length a = length b -> length (map2 f a b) = length a.
Proof.
  revert b. induction a as [|x a IH]; intros [|y b] H; cbn in *;
    try congruence. f_equal. apply IH. lia.
Qed.

Lemma pct_change_periods_one (s : list fl) :
  pct_change_periods 1 s = pct_change s.
Proof.
  unfold pct_change_periods, shift.
  change (0 <=? 1)%Z with true. change (Z.to_nat 1) with 1%nat.
  destruct s as [|x s]; [reflexivity|].
  change (Nat.min 1 (length (x :: s))) with 1%nat.
  change (length (x :: s) - 1)%nat with (length s - 0)%nat.
  rewrite Nat.sub_0_r.
  change (repeat NaN 1 ++ firstn (length s) (x :: s))
    with (NaN :: firstn (length s) (x :: s)).
  cbn [map2 pct_change].
  rewrite fdiv_nan_r. cbn [fsub fneg one fadd]. f_equal.
  revert x. induction s as [|y s IH]; intros x; [reflexivity|].
  cbn [length firstn map2 pct_change_from]. f_equal. apply IH.
Qed.

(** [calculate_returns] keeps the length of the price series for either
    method; the simple returns over 1 period are [pct_change], whose first
    entry is nan, so that a [FinancialModel] over [n >= 1] finite non-zero
    prices holds [n - 1] returns. *)
Theorem calculate_returns_shape `{LG : NumpyLog} (prices : list fl)
    (method : string) (periods : Z) :
  length (MetricsCalculator.calculate_returns prices method periods)
  = length prices
  /\ MetricsCalculator.calculate_returns prices "simple" 1
     = pct_change prices
  /\ (forall p ps, prices = p :: ps ->
        nth 0 (MetricsCalculator.calculate_returns prices "simple" 1) zero
        = NaN)
  /\ (forall rf, prices <> [] ->
        (exists qs, prices = map Fin qs /\ Forall (fun p => ~ p == 0) qs) ->
        S (length (FinancialModel.returns (FinancialModel.init prices rf)))
        = length prices).
Proof.
  split; [|split; [|split]].
  - unfold MetricsCalculator.calculate_returns.
    destruct (String.eqb method "log").
    + rewrite length_map. apply map2_length. now rewrite shift_length.
    + apply map2_length. now rewrite shift_length.
  - unfold MetricsCalculator.calculate_returns. cbn [String.eqb].
    change (String.eqb "simple" "log") with false.
    apply pct_change_periods_one.
  - intros p ps ->. unfold MetricsCalculator.calculate_returns.
    change (String.eqb "simple" "log") with false.
    rewrite pct_change_periods_one. reflexivity.
  - intros rf Hne (qs & -> & Hnz).
    destruct qs as [|q qs]; [exfalso; now apply Hne|].
    rewrite (init_returns_Fin q qs rf Hnz).
    now rewrite !length_map, Qreturns_from_length.
Qed.

Lemma calculate_returns_shape_witness :
  S (length (FinancialModel.returns
               (FinancialModel.init [Fin 100; Fin 110; Fin 99]
                                    (Fin (4 # 100)))))
  = length [Fin 100; Fin 110; Fin 99].
Proof.
  refine (proj2 (proj2 (proj2
            (calculate_returns_shape (LG := sample_log)
               [Fin 100; Fin 110; Fin 99] "simple" 1))) _ _ _).
  - discriminate.
  - exists [100; 110; 99]. split; [reflexivity|].
    repeat constructor; intros E; discriminate E.
Defined.

(** ** Frames of finite values *)

Lemma column_finite (df : DataFrame) (j : nat) :
  finite_frame df -> (j < length df.(columns))%nat ->
  exists qs, column df j = map Fin qs /\ length qs = length df.(rows).
Proof.
  intros [_ Hrows] Hj. unfold column.
  induction Hrows as [|row rows [Hfin Hlen] _ (qs & IH & IHlen)].
  - now exists [].
  - assert (Hin : In (nth j row NaN) row) by (apply nth_In; lia).
    unfold all_finite in Hfin. rewrite List.Forall_forall in Hfin.
    specialize (Hfin _ Hin).
    destruct (nth j row NaN) as [q| | |] eqn:E; try discriminate.
    exists (q :: qs). cbn [map length]. now rewrite E, IH, IHlen.
Qed.

(** ** Default weights *)

(** A [PortfolioModel] built without weights holds the weights of the
    optimizer's [equal_weight]: [1/n] per column, summing to 1.  On a frame
    without columns both raise [ZeroDivisionError]. *)
Theorem default_weights_are_equal_weights `{L : Libm} (df : DataFrame)
    (rf lo hi : fl) :
  (df.(columns) = [] ->
   PortfolioModel.init df None rf = Raise ZeroDivisionError
   /\ PortfolioOptimizer.equal_weight (PortfolioOptimizer.init df rf lo hi)
      = Raise ZeroDivisionError)
  /\ (df.(columns) <> [] ->
      exists pm r,
        PortfolioModel.init df None rf = Ok pm
        /\ PortfolioOptimizer.equal_weight
             (PortfolioOptimizer.init df rf lo hi) = Ok r
        /\ pm.(PortfolioModel.weights) = r.(PortfolioOptimizer.weights)
        /\ length pm.(PortfolioModel.weights) = length df.(columns)
        /\ sums_to_one pm.(PortfolioModel.weights) = true).
Proof.
  split.
  - intros Hc. unfold PortfolioModel.init, PortfolioOptimizer.equal_weight.
    cbn [PortfolioOptimizer.init PortfolioOptimizer.assets]. rewrite Hc.
    split; reflexivity.
  - intros Hc.
    assert (Hn : (0 < length (columns df))%nat)
      by (destruct (columns df); [congruence|simpl; lia]).
    unfold PortfolioModel.init, PortfolioOptimizer.equal_weight.
    cbn [PortfolioOptimizer.init PortfolioOptimizer.assets].
    unfold one, of_nat, of_Z.
    rewrite py_div_Fin by now apply inject_nat_nonzero.
    cbn [rbind]. eexists. eexists.
    split; [reflexivity|]. split; [reflexivity|].
    rewrite result_of_fields.
    cbn [PortfolioModel.weights PortfolioOptimizer.weights].
    split; [reflexivity|]. split; [apply repeat_length|].
    rewrite map_Fin_repeat. apply sums_to_one_Fin.
    rewrite Qsum_repeat. field. now apply inject_nat_nonzero.
Qed.

Lemma default_weights_are_equal_weights_witness :
  exists pm,
    PortfolioModel.init pair_returns None (Fin (4 # 100)) = Ok pm
    /\ sums_to_one pm.(PortfolioModel.weights) = true.
Proof.
  destruct (proj2 (default_weights_are_equal_weights (L := sample_libm)
                     pair_returns (Fin (4 # 100)) zero one))
    as (pm & r & Hpm & _ & _ & _ & Hs).
  - discriminate.
  - exists pm. split; assumption.
Defined.

(** ** Setting weights *)





(** ** Covariance matrix *)

Lemma Qsum_map2_swap (f g : Q -> Q -> Q) (x y : list Q) :
  (forall a b, f a b == g b a) ->
  Qsum (map2 f x y) == Qsum (map2 g y x).
Proof.
  intros Hfg. revert y.
  induction x as [|a x IH]; intros [|b y]; cbn [map2]; try reflexivity.
  rewrite !Qsum_cons, IH, Hfg. reflexivity.
Qed.

Lemma cov_pair_short (x y : list fl) :
  (length x <= 1)%nat -> cov_pair x y = NaN.
Proof.
  intros H. unfold cov_pair.
  replace (length x <=? 1)%nat with true; [reflexivity|].
  symmetry. now apply Nat.leb_le.
Qed.

Lemma cov_pair_sym (x y : list Q) :
  length x = length y ->
  feq (cov_pair (map Fin x) (map Fin y)) (cov_pair (map Fin y) (map Fin x)).
Proof.
  intros Hlen.
  destruct (Nat.le_gt_cases (length x) 1) as [Hshort|Hlong].
  - rewrite !cov_pair_short by (rewrite length_map; lia). exact I.
  - rewrite !cov_pair_Fin by lia. cbn [feq].
    rewrite <- Hlen. unfold Qmean. rewrite <- Hlen.
    rewrite (Qsum_map2_swap _
               (fun b a => (b + - (Qsum y / Qnat (length x)))
                           * (a + - (Qsum x / Qnat (length x)))) x y)
      by (intros a b; ring).
    reflexivity.
Qed.

Lemma fmul_feq_l (x x' : fl) (k : Q) :
  feq x x' -> feq (x * Fin k)%fl (x' * Fin k)%fl.
Proof.
  destruct x as [a| | |], x' as [a'| | |]; cbn [feq]; try easy;
    intros H; try apply feq_refl.
  cbn [fmul feq]. now rewrite H.
Qed.

Lemma cov_matrix_entry (df : DataFrame) (rf lo hi : fl) (i j : nat) :
  (i < length df.(columns))%nat -> (j < length df.(columns))%nat ->
  nth j (nth i (PortfolioOptimizer.cov_matrix
                  (PortfolioOptimizer.init df rf lo hi)) []) NaN
  = (cov_pair (column df i) (column df j) * Fin 252)%fl.
Proof.
  intros Hi Hj.
  cbn [PortfolioOptimizer.init PortfolioOptimizer.cov_matrix].
  unfold scale_matrix, df_cov, column_indices.
  rewrite map_map, nth_map_seq by exact Hi.
  rewrite map_map, nth_map_seq by exact Hj. reflexivity.
Qed.

(** The annualized covariance matrix held by the optimizer is square over
    the columns and symmetric; with at least two rows its entries are finite
    and its diagonal is not negative.  [PortfolioModel] computes the same
    matrix. *)
Theorem covariance_matrix_symmetric (df : DataFrame) (rf lo hi : fl)
    (w : list fl) :
  finite_frame df ->
  let sigma := PortfolioOptimizer.cov_matrix
                 (PortfolioOptimizer.init df rf lo hi) in
  let n := length df.(columns) in
  length sigma = n
  /\ Forall (fun row => length row = n) sigma
  /\ PortfolioModel.calculate_covariance_matrix
       {| PortfolioModel.returns := df; PortfolioModel.weights := w;
          PortfolioModel.risk_free_rate := rf |} = sigma
  /\ (forall i j, (i < n)%nat -> (j < n)%nat ->
        feq (nth j (nth i sigma []) NaN) (nth i (nth j sigma []) NaN))
  /\ ((2 <= length df.(rows))%nat ->
      forall i j, (i < n)%nat -> (j < n)%nat ->
        is_finite (nth j (nth i sigma []) NaN) = true
        /\ fle zero (nth i (nth i sigma []) NaN)).
Proof.
  intros Hdf sigma n.
  split; [|split; [|split; [|split]]].
  - unfold sigma. cbn [PortfolioOptimizer.init PortfolioOptimizer.cov_matrix].
    unfold scale_matrix, df_cov, column_indices.
    now rewrite !length_map, length_seq.
  - unfold sigma. cbn [PortfolioOptimizer.init PortfolioOptimizer.cov_matrix].
    unfold scale_matrix, df_cov, column_indices.
    apply List.Forall_forall. intros row Hrow.
    apply in_map_iff in Hrow as (r0 & <- & Hr0).
    apply in_map_iff in Hr0 as (i & <- & _).
    now rewrite !length_map, length_seq.
  - reflexivity.
  - intros i j Hi Hj. unfold sigma.
    rewrite !cov_matrix_entry by assumption.
    destruct (column_finite df i Hdf Hi) as (x & -> & Hx).
    destruct (column_finite df j Hdf Hj) as (y & -> & Hy).
    apply fmul_feq_l. apply cov_pair_sym. lia.
  - intros Hrows i j Hi Hj. unfold sigma.
    rewrite !cov_matrix_entry by assumption.
    destruct (column_finite df i Hdf Hi) as (x & -> & Hx).
    destruct (column_finite df j Hdf Hj) as (y & -> & Hy).
    rewrite !cov_pair_Fin by lia. cbn [fmul is_finite].
    split; [reflexivity|].
    apply fle_Fin. rewrite map2_diag.
    assert (Hq : 0 < Qnat (length x - 1))
      by (apply inject_nat_pos; lia).
    assert (Hs : 0 <= Qsum (map (fun a =>
                                   (a + - Qmean x)
                                   * (a + - (Qsum x / Qnat (length x)))) x)).
    { apply Qsum_nonneg. apply List.Forall_forall. intros q Hq'.
      apply in_map_iff in Hq' as (a & <- & _).
      fold (Qmean x). apply Qsquare_nonneg. }
    assert (Hd : 0 <= Qsum (map (fun a =>
                                   (a + - Qmean x)
                                   * (a + - (Qsum x / Qnat (length x)))) x)
                      / Qnat (length x - 1))
      by (apply Qle_shift_div_l; lra).
    lra.
Qed.

Lemma covariance_matrix_symmetric_witness :
  let sigma := PortfolioOptimizer.cov_matrix pair_optimizer in
  feq (nth 1 (nth 0 sigma []) NaN) (nth 0 (nth 1 sigma []) NaN).
Proof.
  refine (proj1 (proj2 (proj2 (proj2
            (covariance_matrix_symmetric pair_returns (Fin (4 # 100))
               zero one [] _)))) 0%nat 1%nat _ _).
  - split; [discriminate|]. repeat constructor.
  - simpl. lia.
  - simpl. lia.
Defined.

(** ** Edge cases of the efficient-frontier sweep *)

(** A failure of one of the two end-point optimizations is not skipped: it
    aborts [generate_efficient_frontier].  When both succeed, a negative
    count raises [ValueError], a count of 0 returns three empty arrays, and a
    count of 1 sweeps the single target [min_ret], so that [max_ret] is not
    part of the sweep. *)
Theorem efficient_frontier_edge_cases `{L : Libm} `{S : Scipy}
    (self : PortfolioOptimizer.t) :
  (forall (e : exn) (N : Z),
      PortfolioOptimizer.optimize_min_volatility self = Raise e ->
      PortfolioOptimizer.generate_efficient_frontier self N = Raise e)
  /\ (forall (rmin : PortfolioOptimizer.OptimizationResult) (e : exn) (N : Z),
         PortfolioOptimizer.optimize_min_volatility self = Ok rmin ->
         PortfolioOptimizer.optimize_max_return self = Raise e ->
         PortfolioOptimizer.generate_efficient_frontier self N = Raise e)
  /\ (forall rmin rmax : PortfolioOptimizer.OptimizationResult,
         PortfolioOptimizer.optimize_min_volatility self = Ok rmin ->
         PortfolioOptimizer.optimize_max_return self = Ok rmax ->
         (forall N : Z, (N < 0)%Z ->
            PortfolioOptimizer.generate_efficient_frontier self N
            = Raise ValueError)
         /\ PortfolioOptimizer.generate_efficient_frontier self 0
            = Ok empty_frontier
         /\ (forall a b : Q,
               rmin.(PortfolioOptimizer.expected_return) = Fin a ->
               rmax.(PortfolioOptimizer.expected_return) = Fin b ->
               exists t : Q,
                 PortfolioOptimizer.frontier_targets self 1 = Ok [Fin t]
                 /\ t == a)).
Proof.
  split; [|split].
  - intros e N Hmin.
    unfold PortfolioOptimizer.generate_efficient_frontier,
      PortfolioOptimizer.frontier_targets.
    now rewrite Hmin.
  - intros rmin e N Hmin Hmax.
    unfold PortfolioOptimizer.generate_efficient_frontier,
      PortfolioOptimizer.frontier_targets.
    now rewrite Hmin, Hmax.
  - intros rmin rmax Hmin Hmax. split; [|split].
    + intros N HN.
      unfold PortfolioOptimizer.generate_efficient_frontier,
        PortfolioOptimizer.frontier_targets.
      rewrite Hmin, Hmax. cbn [rbind]. unfold np_linspace.
      replace (N <? 0)%Z with true by (symmetry; apply Z.ltb_lt; lia).
      reflexivity.
    + unfold PortfolioOptimizer.generate_efficient_frontier,
        PortfolioOptimizer.frontier_targets.
      rewrite Hmin, Hmax. reflexivity.
    + intros a b Ha Hb. unfold PortfolioOptimizer.frontier_targets.
      rewrite Hmin, Hmax. cbn [rbind]. rewrite Ha, Hb.
      eexists. split; [reflexivity|]. simpl. ring.
Qed.

Lemma efficient_frontier_edge_cases_witness :
  PortfolioOptimizer.generate_efficient_frontier (L := sample_libm)
    (S := corner_solver) pair_optimizer (-1) = Raise ValueError
  /\ PortfolioOptimizer.generate_efficient_frontier (L := sample_libm)
       (S := corner_solver) pair_optimizer 0 = Ok empty_frontier.
Proof.
  edestruct (proj2 (proj2 (efficient_frontier_edge_cases (L := sample_libm)
                             (S := corner_solver) pair_optimizer)))
    as (Hneg & Hzero & _).
  - vm_compute. reflexivity.
  - vm_compute. reflexivity.
  - split; [apply Hneg; lia|exact Hzero].
Defined.

(** ** An optimizer without assets *)

(** Over a frame without columns every operation that starts from the
    uniform weights [1/n] raises [ZeroDivisionError], the sweep included;
    [cap_weight] alone returns, with an empty weight vector. *)
Theorem optimizer_without_assets `{L : Libm} `{S : Scipy}
    (self : PortfolioOptimizer.t) (target : fl) (N : Z)
    (market_caps : gmap string fl) :
  self.(PortfolioOptimizer.assets) = [] ->
  PortfolioOptimizer.optimize_max_sharpe self = Raise ZeroDivisionError
  /\ PortfolioOptimizer.optimize_min_volatility self = Raise ZeroDivisionError
  /\ PortfolioOptimizer.optimize_max_return self = Raise ZeroDivisionError
  /\ PortfolioOptimizer.optimize_target_return self target
     = Raise ZeroDivisionError
  /\ PortfolioOptimizer.equal_weight self = Raise ZeroDivisionError
  /\ PortfolioOptimizer.generate_efficient_frontier self N
     = Raise ZeroDivisionError
  /\ (PortfolioOptimizer.cap_weight self market_caps)
       .(PortfolioOptimizer.weights) = [].
Proof.
  intros Ha.
  assert (Hw : PortfolioOptimizer.initial_weights self
               = Raise ZeroDivisionError).
  { unfold PortfolioOptimizer.initial_weights. now rewrite Ha. }
  assert (Hmin : PortfolioOptimizer.optimize_min_volatility self
                 = Raise ZeroDivisionError).
  { unfold PortfolioOptimizer.optimize_min_volatility. now rewrite Hw. }
  repeat split.
  - unfold PortfolioOptimizer.optimize_max_sharpe. now rewrite Hw.
  - exact Hmin.
  - unfold PortfolioOptimizer.optimize_max_return. now rewrite Hw.
  - unfold PortfolioOptimizer.optimize_target_return. now rewrite Hw.
  - unfold PortfolioOptimizer.equal_weight. now rewrite Ha.
  - unfold PortfolioOptimizer.generate_efficient_frontier,
      PortfolioOptimizer.frontier_targets. now rewrite Hmin.
  - unfold PortfolioOptimizer.cap_weight. rewrite result_of_fields.
    cbn [PortfolioOptimizer.weights]. now rewrite Ha.
Qed.

Lemma optimizer_without_assets_witness :
  PortfolioOptimizer.equal_weight (L := sample_libm)
    (PortfolioOptimizer.init no_columns (Fin (4 # 100)) zero one)
  = Raise ZeroDivisionError.
Proof.
  refine (proj1 (proj2 (proj2 (proj2 (proj2
            (optimizer_without_assets (L := sample_libm) (S := stalled_solver)
               (PortfolioOptimizer.init no_columns (Fin (4 # 100)) zero one)
               zero 3 ∅ _)))))).
  reflexivity.
Defined.

(** ** The metrics bundle *)

(** [calculate_metrics] raises exactly on the empty price series
    ([IndexError]).  On any other series it returns a bundle whose fields
    are the values of the single methods called with their defaults. *)
Theorem calculate_metrics_bundle `{L : Libm} (self : FinancialModel.t) :
  (self.(FinancialModel.prices) = [] ->
   FinancialModel.calculate_metrics self = Raise IndexError)
  /\ (self.(FinancialModel.prices) <> [] ->
      exists ms : FinancialModel.FinancialMetrics,
        FinancialModel.calculate_metrics self = Ok ms
        /\ FinancialModel.calculate_annualized_return self
           = Ok ms.(FinancialModel.annualized_return)
        /\ FinancialModel.calculate_annualized_volatility self
           = ms.(FinancialModel.annualized_volatility)
        /\ FinancialModel.calculate_sharpe_ratio self None None
           = Ok ms.(FinancialModel.sharpe_ratio)
        /\ FinancialModel.calculate_sortino_ratio self None zero
           = Ok ms.(FinancialModel.sortino_ratio)
        /\ FinancialModel.calculate_max_drawdown self
           = ms.(FinancialModel.max_drawdown)).
Proof.
  destruct self as [prices rf rets]. cbn [FinancialModel.prices]. split.
  - intros ->. reflexivity.
  - intros Hne. destruct prices as [|p ps]; [congruence|].
    unfold FinancialModel.calculate_metrics,
      FinancialModel.calculate_sharpe_ratio,
      FinancialModel.calculate_sortino_ratio.
    rewrite calculate_annualized_return_nonempty. cbn [rbind].
    set (ar := (powf _ _ - one)%fl).
    set (self := {| FinancialModel.prices := p :: ps;
                    FinancialModel.risk_free_rate := rf;
                    FinancialModel.returns := rets |}).
    destruct (feqb (FinancialModel.calculate_annualized_volatility self) zero);
      destruct (feqb (pd_std (List.filter (fun r => (r <? zero)%fl)
                                (FinancialModel.returns self))
                      * np_sqrt (Fin 252))%fl zero);
      cbn [rbind]; eexists; repeat split; reflexivity.
Qed.

Lemma calculate_metrics_bundle_witness :
  exists ms : FinancialModel.FinancialMetrics,
    FinancialModel.calculate_metrics (L := sample_libm)
      (FinancialModel.init [Fin 100; Fin 110; Fin 99] (Fin (4 # 100)))
    = Ok ms.
Proof.
  destruct (proj2 (calculate_metrics_bundle (L := sample_libm)
                     (FinancialModel.init [Fin 100; Fin 110; Fin 99]
                                          (Fin (4 # 100)))))
    as (ms & Hms & _).
  - discriminate.
  - exists ms. exact Hms.
Defined.

(** ** Errors of the historical risk measures *)

(** [calculate_var], [calculate_cvar], [calculate_beta] and
    [get_metrics_summary] raise [ValueError] when the weight vector has not
    one entry per column; [calculate_var] and [calculate_cvar] also raise it
    for a finite confidence level above 1, or below 0 by [1e-9] or more (the
    margin keeps [1 - confidence] clear of 1 after rounding). *)
Theorem risk_measures_value_errors `{L : Libm} (self : PortfolioModel.t) :
  (length self.(PortfolioModel.weights)
   <> length self.(PortfolioModel.returns).(columns) ->
   (forall confidence,
       PortfolioModel.calculate_var self confidence = Raise ValueError
       /\ PortfolioModel.calculate_cvar self confidence = Raise ValueError)
   /\ (forall market,
          PortfolioModel.calculate_beta self market = Raise ValueError)
   /\ PortfolioModel.get_metrics_summary self = Raise ValueError)
  /\ (forall c : Q,
         c <= - (1 # 1000000000) \/ 1 < c ->
         PortfolioModel.calculate_var self (Fin c) = Raise ValueError
         /\ PortfolioModel.calculate_cvar self (Fin c) = Raise ValueError).
Proof.
  split.
  - intros Hlen.
    assert (Hprs : PortfolioModel.portfolio_returns self = Raise ValueError).
    { unfold PortfolioModel.portfolio_returns, weighted_row_sums.
      replace (length (PortfolioModel.weights self)
               =? length (columns (PortfolioModel.returns self)))%nat
        with false; [reflexivity|].
      symmetry. now apply Nat.eqb_neq. }
    assert (Hvar : forall confidence,
               PortfolioModel.calculate_var self confidence
               = Raise ValueError).
    { intros c. unfold PortfolioModel.calculate_var. now rewrite Hprs. }
    split; [|split].
    + intros c. split; [apply Hvar|].
      unfold PortfolioModel.calculate_cvar. now rewrite Hprs.
    + intros market. unfold PortfolioModel.calculate_beta. now rewrite Hprs.
    + unfold PortfolioModel.get_metrics_summary. now rewrite Hvar.
  - intros c Hc.
    assert (Hp : forall a, np_percentile a ((one - Fin c) * Fin 100)%fl
                           = Raise ValueError).
    { intros a. unfold np_percentile, fsub, one. cbn [fneg fadd fmul fdiv].
      replace (Qeq_bool 100 0) with false by reflexivity.
      replace (Qle_bool 0 ((1 + - c) * 100 / 100)
               && Qle_bool ((1 + - c) * 100 / 100) 1) with false;
        [reflexivity|].
      symmetry. apply andb_false_iff.
      assert (E : (1 + - c) * 100 / 100 == 1 - c) by field.
      destruct Hc as [Hc|Hc]; [right|left];
        (destruct (Qle_bool _ _) eqn:Eb; [|reflexivity]);
        apply Qle_bool_iff in Eb; rewrite E in Eb; lra. }
    unfold PortfolioModel.calculate_var, PortfolioModel.calculate_cvar,
      PortfolioModel.portfolio_returns, weighted_row_sums.
    destruct (length (PortfolioModel.weights self)
              =? length (columns (PortfolioModel.returns self)))%nat.
    + cbn [rbind]. now rewrite Hp.
    + split; reflexivity.
Qed.

Lemma risk_measures_value_errors_witness :
  PortfolioModel.calculate_var tail_portfolio (Fin (3 # 2))
  = Raise ValueError.
Proof.
  refine (proj1 (proj2 (risk_measures_value_errors (L := sample_libm)
                          tail_portfolio) (3 # 2) _)).
  right. reflexivity.
Defined.

(** ** Value at risk across confidence levels *)

Lemma sorted_Fin (srt : list Q) :
  StronglySorted fle (map Fin srt) -> StronglySorted Qle srt.
Proof.
  induction srt as [|x srt IH]; intros Hs; [constructor|].
  cbn [map] in Hs. inversion Hs as [|? ? Hs' Hx]; subst.
  constructor; [now apply IH|].
  apply List.Forall_forall. intros y Hy.
  rewrite List.Forall_forall in Hx. apply fle_Fin. apply Hx.
  now apply in_map.
Qed.

Lemma np_sort_Fin (qs : list Q) :
  exists srt, np_sort (map Fin qs) = map Fin srt
              /\ Permutation qs srt /\ StronglySorted Qle srt.
Proof.
  destruct (Permutation_map_inv Fin qs (np_sort_perm (map Fin qs)))
    as (srt & Hsrt & Hperm).
  exists srt. split; [exact Hsrt|]. split; [exact Hperm|].
  apply sorted_Fin. rewrite <- Hsrt.
  apply np_sort_sorted, all_finite_not_nan, all_finite_map_Fin. eauto.
Qed.

Lemma Qsorted_nth_le (srt : list Q) (i j : nat) :
  StronglySorted Qle srt -> (i <= j)%nat -> (j < length srt)%nat ->
  nth i srt 0 <= nth j srt 0.
Proof.
  intros Hs. revert i j.
  induction Hs as [|x l Hs IH Hx]; intros i j Hij Hj; [simpl in Hj; lia|].
  destruct i as [|i], j as [|j]; cbn [nth length] in *.
  - lra.
  - rewrite List.Forall_forall in Hx. apply Hx. apply nth_In. lia.
  - lia.
  - apply IH; lia.
Qed.

Lemma nth_map_Fin (srt : list Q) (i : nat) :
  (i < length srt)%nat -> nth i (map Fin srt) NaN = Fin (nth i srt 0).
Proof.
  intros Hi. rewrite (nth_indep _ NaN (Fin 0)) by (now rewrite length_map).
  apply (map_nth Fin).
Qed.

Lemma lerp_value (a b t : Q) :
  exists r, lerp (Fin a) (Fin b) (Fin t) = Fin r /\ r == a + (b - a) * t.
Proof.
  unfold lerp, fsub, one. cbn [fneg fadd fmul fleb].
  destruct (Qle_bool (1 # 2) t); cbn [fneg fadd];
    eexists; (split; [reflexivity|]); ring.
Qed.

(** The value of [np.percentile] on finite data, in terms of the sorted
    data. *)
Lemma np_percentile_value (qs srt : list Q) (q : Q) :
  qs <> [] -> 0 <= q -> q <= 100 ->
  np_sort (map Fin qs) = map Fin srt ->
  exists r, np_percentile (map Fin qs) (Fin q) = Ok (Fin r)
            /\ r == Qpercentile srt (q / 100).
Proof.
  intros Hne Hq0 Hq1 Hsrt. unfold np_percentile.
  cbn [fdiv]. replace (Qeq_bool 100 0) with false by reflexivity.
  assert (Hquant : 0 <= q / 100 <= 1).
  { split; [apply Qle_shift_div_l; lra | apply Qle_shift_div_r; lra]. }
  set (quant := q / 100) in *. clearbody quant.
  destruct Hquant as [Hl Hu].
  rewrite (proj2 (Qle_bool_iff 0 quant) Hl).
  rewrite (proj2 (Qle_bool_iff quant 1) Hu). cbn [andb].
  rewrite (all_finite_existsb_nan (map Fin qs))
    by (apply all_finite_map_Fin; eauto).
  assert (Hlen : length srt = length qs).
  { rewrite <- (length_map Fin srt), <- Hsrt, np_sort_length.
    apply length_map. }
  rewrite length_map.
  destruct (length qs) as [|m] eqn:Hlq;
    [destruct qs; [congruence|discriminate]|].
  cbv zeta. rewrite Hsrt. unfold Qpercentile. rewrite Hlen.
  replace (S m - 1)%nat with m by lia. fold (Qnat m).
  set (virt := quant * Qnat m).
  assert (Hm : 0 <= Qnat m).
  { change 0 with (Qnat 0). apply Qnat_le. lia. }
  assert (Hv0 : 0 <= virt) by (unfold virt; nra).
  assert (Hv1 : virt <= Qnat m) by (unfold virt; nra).
  pose proof (Qfloor_nonneg virt Hv0) as Hf0.
  pose proof (Qfloor_le_nat virt m Hv1) as Hf1.
  rewrite !nth_map_Fin by lia.
  destruct (lerp_value (nth (Z.to_nat (Qfloor virt)) srt 0)
              (nth (Nat.min (S (Z.to_nat (Qfloor virt))) m) srt 0)
              (virt - inject_Z (Qfloor virt))) as (r & -> & Hr).
  exists r. split; [reflexivity|exact Hr].
Qed.

Lemma Qpercentile_comp (srt : list Q) (q q' : Q) :
  q == q' -> Qpercentile srt q == Qpercentile srt q'.
Proof.
  intros H. unfold Qpercentile.
  assert (Hf : Qfloor (q * Qnat (length srt - 1))
               = Qfloor (q' * Qnat (length srt - 1))) by now rewrite H.
  rewrite Hf, H. reflexivity.
Qed.

Section Quantile.
Variable srt : list Q.
Hypothesis Hsorted : StronglySorted Qle srt.
Hypothesis Hne : srt <> [].

Local Abbreviation m := (length srt - 1)%nat.

Lemma quantile_index (quant : Q) :
  0 <= quant -> quant <= 1 ->
  let virt := quant * Qnat m in
  (0 <= Qfloor virt)%Z /\ (Z.to_nat (Qfloor virt) <= m)%nat
  /\ 0 <= virt - inject_Z (Qfloor virt) /\ virt - inject_Z (Qfloor virt) < 1.
Proof.
  intros H0 H1 virt.
  assert (Hm : 0 <= Qnat m) by (change 0 with (Qnat 0); apply Qnat_le; lia).
  assert (Hv0 : 0 <= virt) by (unfold virt; nra).
  assert (Hv1 : virt <= Qnat m) by (unfold virt; nra).
  pose proof (Qfloor_nonneg virt Hv0).
  pose proof (Qfloor_le_nat virt m Hv1).
  pose proof (Qfloor_le virt). pose proof (Qlt_floor virt) as Hg.
  rewrite inject_Z_plus in Hg. change (inject_Z 1) with 1 in Hg.
  repeat split; try lia; lra.
Qed.

Lemma length_srt : length srt = S m.
Proof. destruct srt; [congruence|simpl; lia]. Qed.

(** A quantile lies between the two order statistics it interpolates. *)
Lemma Qpercentile_between (quant : Q) :
  0 <= quant -> quant <= 1 ->
  let prev := Z.to_nat (Qfloor (quant * Qnat m)) in
  nth prev srt 0 <= Qpercentile srt quant
  /\ Qpercentile srt quant <= nth (Nat.min (S prev) m) srt 0.
Proof.
  intros H0 H1 prev.
  destruct (quantile_index quant H0 H1) as (Hf & Hp & Hg0 & Hg1).
  fold prev in Hp.
  assert (Hab : nth prev srt 0 <= nth (Nat.min (S prev) m) srt 0).
  { apply Qsorted_nth_le; [exact Hsorted|lia|rewrite length_srt; lia]. }
  unfold Qpercentile. cbv zeta. fold prev.
  set (g := quant * Qnat m - inject_Z (Qfloor (quant * Qnat m))) in *.
  split; nra.
Qed.

Lemma Qpercentile_monotone (q1 q2 : Q) :
  0 <= q1 -> q1 <= q2 -> q2 <= 1 ->
  Qpercentile srt q1 <= Qpercentile srt q2.
Proof.
  intros H0 H12 H1.
  assert (Hm : 0 <= Qnat m) by (change 0 with (Qnat 0); apply Qnat_le; lia).
  destruct (quantile_index q1 H0 ltac:(lra)) as (Hf1 & Hp1 & Hg10 & Hg11).
  destruct (quantile_index q2 ltac:(lra) H1) as (Hf2 & Hp2 & Hg20 & Hg21).
  destruct (Qpercentile_between q1 H0 ltac:(lra)) as [_ Hup1].
  destruct (Qpercentile_between q2 ltac:(lra) H1) as [Hlo2 _].
  assert (Hv : q1 * Qnat m <= q2 * Qnat m) by nra.
  pose proof (Qfloor_resp_le _ _ Hv) as Hfl.
  destruct (Z.eq_dec (Qfloor (q1 * Qnat m)) (Qfloor (q2 * Qnat m)))
    as [Heq|Hneq].
  - unfold Qpercentile. cbv zeta. rewrite <- Heq.
    set (prev := Z.to_nat (Qfloor (q1 * Qnat m))) in *.
    assert (Hab : nth prev srt 0 <= nth (Nat.min (S prev) m) srt 0).
    { apply Qsorted_nth_le; [exact Hsorted|lia|rewrite length_srt; lia]. }
    nra.
  - set (p1 := Z.to_nat (Qfloor (q1 * Qnat m))) in *.
    set (p2 := Z.to_nat (Qfloor (q2 * Qnat m))) in *.
    assert (Hlt : (S p1 <= p2)%nat) by (unfold p1, p2; lia).
    assert (Hmid : nth (Nat.min (S p1) m) srt 0 <= nth p2 srt 0).
    { apply Qsorted_nth_le; [exact Hsorted|lia|rewrite length_srt; lia]. }
    lra.
Qed.

Lemma Qpercentile_zero : Qpercentile srt 0 == nth 0 srt 0.
Proof.
  unfold Qpercentile. cbv zeta.
  assert (E : 0 * Qnat m == 0) by ring.
  assert (Hf : Qfloor (0 * Qnat m) = 0%Z)
    by (rewrite E; reflexivity).
  rewrite Hf. change (Z.to_nat 0) with 0%nat.
  change (inject_Z 0) with 0. ring.
Qed.

Lemma Qpercentile_one : Qpercentile srt 1 == nth m srt 0.
Proof.
  unfold Qpercentile. cbv zeta.
  assert (E : 1 * Qnat m == Qnat m) by ring.
  assert (Hf : Qfloor (1 * Qnat m) = Z.of_nat m).
  { rewrite E. unfold Qnat. apply Qfloor_Z. }
  rewrite Hf, Nat2Z.id.
  replace (Nat.min (S m) m) with m by lia.
  fold (Qnat m). ring.
Qed.

End Quantile.

Lemma perm_extremes (qs srt : list Q) :
  Permutation qs srt -> StronglySorted Qle srt -> srt <> [] ->
  let m := (length srt - 1)%nat in
  In (nth 0 srt 0) qs /\ In (nth m srt 0) qs
  /\ Forall (fun x => nth 0 srt 0 <= x /\ x <= nth m srt 0) qs.
Proof.
  intros Hperm Hs Hne m.
  assert (Hlen : length srt = S m)
    by (unfold m; destruct srt; [congruence|simpl; lia]).
  split; [|split].
  - eapply Permutation_in; [symmetry; exact Hperm|]. apply nth_In. lia.
  - eapply Permutation_in; [symmetry; exact Hperm|]. apply nth_In. lia.
  - apply List.Forall_forall. intros x Hx.
    assert (Hin : In x srt) by (eapply Permutation_in; eassumption).
    apply (In_nth _ _ 0) in Hin as (i & Hi & <-).
    split; apply Qsorted_nth_le; try assumption; lia.
Qed.

(** On a finite, non-empty return matrix with aligned finite weights the
    historical VaR is finite for every confidence level in [0, 1] and does
    not increase when the confidence level rises.  At confidence 1 it is the
    worst realized portfolio return, at confidence 0 the best one, and it
    stays between the two. *)
Theorem var_decreases_with_confidence (self : PortfolioModel.t) :
  Forall all_finite self.(PortfolioModel.returns).(rows) ->
  all_finite self.(PortfolioModel.weights) ->
  self.(PortfolioModel.returns).(rows) <> [] ->
  length self.(PortfolioModel.weights)
    = length self.(PortfolioModel.returns).(columns) ->
  exists (qs : list Q) (worst best : Q),
    PortfolioModel.portfolio_returns self = Ok (map Fin qs)
    /\ PortfolioModel.calculate_var self (Fin 1) = Ok (Fin worst)
    /\ PortfolioModel.calculate_var self (Fin 0) = Ok (Fin best)
    /\ Exists (fun x => x == worst) qs
    /\ Exists (fun x => x == best) qs
    /\ Forall (fun x => worst <= x /\ x <= best) qs
    /\ (forall c1 c2 : Q,
          0 <= c1 -> c1 <= c2 -> c2 <= 1 ->
          exists v1 v2 : Q,
            PortfolioModel.calculate_var self (Fin c1) = Ok (Fin v1)
            /\ PortfolioModel.calculate_var self (Fin c2) = Ok (Fin v2)
            /\ v2 <= v1 /\ worst <= v2 /\ v1 <= best).
Proof.
  intros Hrows Hw Hne Hlen.
  destruct (PortfolioModel.portfolio_returns self) as [prs|e] eqn:Hprs.
  2:{ unfold PortfolioModel.portfolio_returns, weighted_row_sums in Hprs.
      rewrite Hlen, Nat.eqb_refl in Hprs. discriminate Hprs. }
  destruct (weighted_row_sums_finite _ _ _ Hrows Hw Hprs) as [Hfin Hlp].
  apply all_finite_map_Fin in Hfin as (qs & ->).
  assert (Hqs : qs <> []).
  { intros ->. simpl in Hlp.
    destruct (rows (PortfolioModel.returns self)); [congruence|discriminate]. }
  destruct (np_sort_Fin qs) as (srt & Hsrt & Hperm & Hsorted).
  assert (Hsne : srt <> []).
  { intros ->. apply Permutation_sym, Permutation_nil in Hperm. contradiction. }
  set (m := (length srt - 1)%nat).
  assert (Hvar : forall c : Q, 0 <= c -> c <= 1 ->
             exists v, PortfolioModel.calculate_var self (Fin c) = Ok (Fin v)
                       /\ v == Qpercentile srt (1 - c)).
  { intros c Hc0 Hc1. unfold PortfolioModel.calculate_var.
    rewrite Hprs. cbn [rbind].
    change ((one - Fin c) * Fin 100)%fl with (Fin ((1 + - c) * 100)).
    destruct (np_percentile_value qs srt ((1 + - c) * 100) Hqs
                ltac:(nra) ltac:(nra) Hsrt) as (r & Hr & Hrv).
    exists r. split; [exact Hr|]. rewrite Hrv.
    apply Qpercentile_comp. field. }
  destruct (Hvar 1 ltac:(lra) ltac:(lra)) as (worst & Hworst & Hwv).
  destruct (Hvar 0 ltac:(lra) ltac:(lra)) as (best & Hbest & Hbv).
  assert (Hq0 : Qpercentile srt 0 == nth 0 srt 0)
    by (first [apply Qpercentile_zero; assumption | apply Qpercentile_zero]).
  assert (Hq1 : Qpercentile srt 1 == nth m srt 0)
    by (first [apply Qpercentile_one; assumption | apply Qpercentile_one]).
  assert (Hw0 : worst == nth 0 srt 0).
  { rewrite Hwv, <- Hq0. apply Qpercentile_comp. ring. }
  assert (Hb1 : best == nth m srt 0).
  { rewrite Hbv, <- Hq1. apply Qpercentile_comp. ring. }
  destruct (perm_extremes qs srt Hperm Hsorted Hsne) as (Hin0 & Hinm & Hall).
  fold m in Hinm, Hall.
  exists qs, worst, best.
  split; [reflexivity|]. split; [exact Hworst|]. split; [exact Hbest|].
  split; [apply List.Exists_exists; eexists; split;
          [exact Hin0|now symmetry]|].
  split; [apply List.Exists_exists; eexists; split;
          [exact Hinm|now symmetry]|].
  split.
  - eapply List.Forall_impl; [|exact Hall].
    intros x [H1 H2]. cbv beta. rewrite Hw0, Hb1. split; assumption.
  - intros c1 c2 H0 H12 H1.
    destruct (Hvar c1 ltac:(lra) ltac:(lra)) as (v1 & Hv1 & Hv1v).
    destruct (Hvar c2 ltac:(lra) ltac:(lra)) as (v2 & Hv2 & Hv2v).
    exists v1, v2. split; [exact Hv1|]. split; [exact Hv2|].
    pose proof (Qpercentile_monotone srt Hsorted Hsne (1 - c2) (1 - c1)
                  ltac:(lra) ltac:(lra) ltac:(lra)) as Hmono.
    pose proof (Qpercentile_monotone srt Hsorted Hsne 0 (1 - c2)
                  ltac:(lra) ltac:(lra) ltac:(lra)) as Hlow.
    pose proof (Qpercentile_monotone srt Hsorted Hsne (1 - c1) 1
                  ltac:(lra) ltac:(lra) ltac:(lra)) as Hhigh.
    rewrite Hq0 in Hlow. rewrite Hq1 in Hhigh.
    rewrite Hv1v, Hv2v, Hw0, Hb1. repeat split; assumption.
Qed.

Lemma var_decreases_with_confidence_witness :
  exists v1 v2 : Q,
    PortfolioModel.calculate_var tail_portfolio (Fin (90 # 100))
    = Ok (Fin v1)
    /\ PortfolioModel.calculate_var tail_portfolio (Fin (99 # 100))
       = Ok (Fin v2)
    /\ v2 <= v1.
Proof.
  destruct (var_decreases_with_confidence tail_portfolio)
    as (qs & worst & best & _ & _ & _ & _ & _ & _ & Hmono).
  - repeat constructor.
  - repeat constructor.
  - discriminate.
  - reflexivity.
  - destruct (Hmono (90 # 100) (99 # 100)) as (v1 & v2 & H1 & H2 & Hle & _).
    + vm_compute. discriminate.
    + vm_compute. discriminate.
    + vm_compute. discriminate.
    + exists v1, v2. repeat split; assumption.
Defined.

(** ** Stress test *)

Lemma fold_fmin_head (x : Q) (l : list Q) :
  Forall (fun y => x <= y) l ->
  fold_left fmin (map Fin l) (Fin x) = Fin x.
Proof.
  induction 1 as [|y l Hy _ IH]; [reflexivity|].
  cbn [map fold_left]. unfold fmin at 2. cbn [fleb].
  apply Qle_bool_iff in Hy. rewrite Hy. exact IH.
Qed.

Lemma nsmallest_Fin (qs srt : list Q) (n : Z) :
  np_sort (map Fin qs) = map Fin srt ->
  nsmallest n (map Fin qs) = map Fin (firstn (Z.to_nat n) srt).
Proof.
  intros H. unfold nsmallest. rewrite dropna_Fin, H.
  apply firstn_map.
Qed.

Lemma firstn_nonempty (srt : list Q) (k : nat) :
  srt <> [] -> (0 < k)%nat -> firstn k srt <> [].
Proof. destruct srt, k; simpl; intros; try congruence; lia. Qed.

Lemma pd_mean_Qmean (l : list Q) :
  l <> [] -> pd_mean (map Fin l) = Fin (Qmean l).
Proof. apply pd_mean_Fin. Qed.

Lemma In_firstn_In (k : nat) (l : list Q) (y : Q) :
  In y (firstn k l) -> In y l.
Proof.
  revert l. induction k as [|k IH]; intros [|x l]; simpl; try tauto.
  intros [->|H]; [now left|right; now apply IH].
Qed.

Lemma pd_min_sorted (srt : list Q) (k : nat) :
  StronglySorted Qle srt -> srt <> [] -> (0 < k)%nat ->
  pd_min (map Fin (firstn k srt)) = Fin (nth 0 srt 0).
Proof.
  intros Hs Hne Hk. unfold pd_min. rewrite dropna_Fin.
  destruct srt as [|x srt]; [congruence|].
  destruct k as [|k]; [lia|].
  cbn [firstn map nth]. apply fold_fmin_head.
  inversion Hs as [|? ? _ Hx]; subst.
  apply List.Forall_forall. intros y Hy.
  rewrite List.Forall_forall in Hx. apply Hx.
  eapply In_firstn_In. exact Hy.
Qed.

Lemma py_int_small (q : Q) : q < 1 -> Z.to_nat (py_int q) = 0%nat.
Proof.
  intros Hq. unfold py_int.
  destruct (Qle_bool 0 q) eqn:E.
  - assert (Qfloor q < 1)%Z; [|lia].
    rewrite Zlt_Qlt. pose proof (Qfloor_le q).
    change (inject_Z 1) with 1. lra.
  - assert (Hneg : q < 0).
    { apply Qnot_le_lt. intros H. apply Qle_bool_iff in H. congruence. }
    assert (Qceiling q <= 0)%Z; [|lia].
    pose proof (Qceiling_resp_le q (inject_Z 0)) as H.
    rewrite Qceiling_Z in H. apply H. change (inject_Z 0) with 0. lra.
Qed.

Lemma py_int_large (q : Q) : 1 <= q -> (0 < Z.to_nat (py_int q))%nat.
Proof.
  intros Hq. unfold py_int.
  assert (E : Qle_bool 0 q = true) by (apply Qle_bool_iff; lra).
  rewrite E.
  assert (1 <= Qfloor q)%Z; [|lia].
  pose proof (Qfloor_resp_le (inject_Z 1) q) as H.
  rewrite Qfloor_Z in H. apply H. exact Hq.
Qed.

Lemma stress_count (n : nat) (p : Z) :
  Qnat n * inject_Z p / 100 == inject_Z (Z.of_nat n * p) / 100.
Proof. unfold Qnat. now rewrite inject_Z_mult. Qed.

(** The stress-test report on a finite series, for a whole-number
    percentile [p] (the default is 1).  When [len * p < 100] (with the
    default: fewer than 100 returns) no observation is selected and
    [worst_return] and [avg_worst_return] are nan.  Otherwise [worst_return]
    is the minimum of the series and [avg_worst_return] is finite.  On a
    non-empty series [worst_5_return] and [worst_10_return] are finite. *)
Theorem stress_test_report (qs : list Q) (p : Z) :
  let report :=
    MetricsCalculator.calculate_stress_test (map Fin qs) (inject_Z p) in
  ((Z.of_nat (length qs) * p < 100)%Z ->
   report !! "worst_return" = Some NaN
   /\ report !! "avg_worst_return" = Some NaN)
  /\ ((100 <= Z.of_nat (length qs) * p)%Z ->
      exists w a : Q,
        report !! "worst_return" = Some (Fin w)
        /\ report !! "avg_worst_return" = Some (Fin a)
        /\ In w qs /\ Forall (fun x => w <= x) qs)
  /\ (qs <> [] ->
      exists m5 m10 : Q,
        report !! "worst_5_return" = Some (Fin m5)
        /\ report !! "worst_10_return" = Some (Fin m10)).
Proof.
  intros report.
  destruct (np_sort_Fin qs) as (srt & Hsrt & Hperm & Hsorted).
  assert (Hsne : qs <> [] -> srt <> []).
  { intros Hne ->. apply Permutation_sym, Permutation_nil in Hperm.
    contradiction. }
  split; [|split].
  - intros Hsmall. subst report.
    unfold MetricsCalculator.calculate_stress_test.
    cbv zeta. rewrite length_map. fold (Qnat (length qs)).
    assert (E : nsmallest (py_int (Qnat (length qs) * inject_Z p / 100))
                  (map Fin qs) = []).
    { unfold nsmallest. rewrite py_int_small; [reflexivity|].
      rewrite stress_count. apply Qlt_shift_div_r; [reflexivity|].
      rewrite Qmult_1_l. change 100 with (inject_Z 100).
      now rewrite <- Zlt_Qlt. }
    rewrite E. split.
    + rewrite lookup_insert_eq. reflexivity.
    + rewrite lookup_insert_ne by discriminate.
      rewrite lookup_insert_eq. reflexivity.
  - intros Hlarge. subst report.
    assert (Hne : qs <> []).
    { intros ->. cbn [length] in Hlarge. lia. }
    specialize (Hsne Hne).
    unfold MetricsCalculator.calculate_stress_test. cbv zeta.
    rewrite length_map. fold (Qnat (length qs)).
    set (k := Z.to_nat (py_int (Qnat (length qs) * inject_Z p / 100))).
    assert (Hk : (0 < k)%nat).
    { apply py_int_large. rewrite stress_count.
      apply Qle_shift_div_l; [reflexivity|].
      rewrite Qmult_1_l. change 100 with (inject_Z 100).
      now rewrite <- Zle_Qle. }
    rewrite (nsmallest_Fin qs srt _ Hsrt). fold k.
    destruct (perm_extremes qs srt Hperm Hsorted Hsne) as (Hin & _ & Hall).
    exists (nth 0 srt 0), (Qmean (firstn k srt)).
    split.
    { rewrite lookup_insert_eq. f_equal.
      now apply pd_min_sorted. }
    split.
    { rewrite lookup_insert_ne by discriminate.
      rewrite lookup_insert_eq. f_equal.
      apply pd_mean_Qmean. now apply firstn_nonempty. }
    split; [exact Hin|].
    eapply List.Forall_impl; [|exact Hall]. intros x [H _]. exact H.
  - intros Hne. subst report. specialize (Hsne Hne).
    unfold MetricsCalculator.calculate_stress_test. cbv zeta.
    rewrite !(nsmallest_Fin qs srt _ Hsrt).
    change (Z.to_nat 5) with 5%nat. change (Z.to_nat 10) with 10%nat.
    exists (Qmean (firstn 5 srt)), (Qmean (firstn 10 srt)).
    split.
    { rewrite !lookup_insert_ne by discriminate.
      rewrite lookup_insert_eq. f_equal.
      apply pd_mean_Qmean. apply firstn_nonempty; [assumption|lia]. }
    rewrite !lookup_insert_ne by discriminate.
    rewrite lookup_insert_eq. f_equal.
    apply pd_mean_Qmean. apply firstn_nonempty; [assumption|lia].
Qed.

Lemma stress_test_report_witness :
  let report :=
    MetricsCalculator.calculate_stress_test
      (map Fin [1 # 100; -3 # 100; 2 # 100]) (inject_Z 1) in
  report !! "worst_return" = Some NaN
  /\ report !! "avg_worst_return" = Some NaN
  /\ exists w a : Q,
       MetricsCalculator.calculate_stress_test
         (map Fin [1 # 100; -3 # 100; 2 # 100]) (inject_Z 50)
       !! "worst_return" = Some (Fin w)
       /\ MetricsCalculator.calculate_stress_test
            (map Fin [1 # 100; -3 # 100; 2 # 100]) (inject_Z 50)
          !! "avg_worst_return" = Some (Fin a)
       /\ In w [1 # 100; -3 # 100; 2 # 100].
Proof.
  intros report.
  destruct (stress_test_report [1 # 100; -3 # 100; 2 # 100] 1)
    as (Hsmall & _ & _).
  destruct Hsmall as [H1 H2]; [vm_compute; reflexivity|].
  destruct (stress_test_report [1 # 100; -3 # 100; 2 # 100] 50)
    as (_ & Hlarge & _).
  destruct Hlarge as (w & a & Hw & Ha & Hin & _);
    [vm_compute; discriminate|].
  split; [exact H1|]. split; [exact H2|].
  exists w, a. repeat split; assumption.
Defined.

(** ** Instances of the unconditional properties *)


Lemma guarded_ratios_never_raise_witness :
  (exists v,
      MetricsCalculator.calculate_recovery_factor (Fin (12 # 100)) zero
      = Ok v)
  /\ (exists v,
         MetricsCalculator.calculate_treynor_ratio (Fin (8 # 100)) zero
           (Fin (4 # 100)) = Ok v).
Proof.
  destruct guarded_ratios_never_raise as (Hr & _ & Ht & _).
  split; [apply Hr|apply Ht].
Defined.
